(** * A from-scratch multi-layer tanh RNN forward pass, verified.

    The development embeds the class [RNN] of [RNN_from_scratch.ipynb]:
    [tanh_cell], [cum_map], [layers_forward], [batch_forward] and
    [__call__].  Python exceptions are values of an error monad, torch
    tensors are a shape together with row-major data, and the scalar
    arithmetic of the tensor library (addition, multiplication, tanh) is an
    interface, so that every theorem holds for whatever arithmetic the
    library implements. *)

From Stdlib Require Import List Arith Lia Bool Reals.
Import ListNotations.

Set Implicit Arguments.

(** ** Python exceptions as an error monad *)

Module Py.

Inductive exn : Type :=
| TypeError      (* iteration over a 0-d tensor *)
| IndexError     (* list index out of range *)
| NameError      (* a global name that is not bound *)
| RuntimeError.  (* every shape error raised by torch *)

Inductive result (A : Type) : Type :=
| Ok (a : A)
| Raise (e : exn).

Arguments Ok {A} a.
Arguments Raise {A} e.

Definition bind {A B} (m : result A) (k : A -> result B) : result B :=
  match m with
  | Ok a => k a
  | Raise e => Raise e
  end.

Definition raises {A} (m : result A) : Prop := exists e, m = Raise e.

(** [l[i]] for a Python list and an index that is not negative. *)
Definition index {A} (l : list A) (i : nat) : result A :=
  match nth_error l i with
  | Some a => Ok a
  | None => Raise IndexError
  end.

(** [enumerate(l)]. *)
Definition enumerate {A} (l : list A) : list (nat * A) :=
  combine (seq 0 (length l)) l.

End Py.
Import Py.

Notation "x <- m ;; k" := (bind m (fun x => k))
  (at level 61, m at next level, right associativity).
Notation "' p <- m ;; k" := (bind m (fun p => k))
  (at level 61, p pattern, m at next level, right associativity).

(** ** The scalar arithmetic of the tensor library *)

Class Scalar (F : Type) : Type := {
  fzero : F;
  fadd : F -> F -> F;
  fmul : F -> F -> F;
  ftanh : F -> F
}.

(** ** Tensors: a shape and the elements in row-major order *)

Module Torch.

Record tensor (F : Type) : Type := mkT { shape : list nat; data : list F }.

Arguments mkT {F} shape data.
Arguments shape {F} t.
Arguments data {F} t.

Definition numel (s : list nat) : nat := fold_right Nat.mul 1 s.

(** A tensor holds as many elements as its shape says. *)
Definition wf {F} (t : tensor F) : Prop := length (data t) = numel (shape t).

(** [n] consecutive pieces of [k] elements each. *)
Fixpoint chunks {A} (n k : nat) (l : list A) : list (list A) :=
  match n with
  | 0 => []
  | S n' => firstn k l :: chunks n' k (skipn k l)
  end.

Fixpoint shape_eqb (s1 s2 : list nat) : bool :=
  match s1, s2 with
  | [], [] => true
  | a :: s1', b :: s2' => (a =? b) && shape_eqb s1' s2'
  | _, _ => false
  end.

Section Ops.
Context {F : Type} {SF : Scalar F}.

(** Python iteration over a tensor: its slices along axis 0. *)
Definition iter (t : tensor F) : result (list (tensor F)) :=
  match shape t with
  | [] => Raise TypeError
  | n :: s => Ok (map (mkT s) (chunks n (numel s) (data t)))
  end.

(** [torch.stack]: a new leading axis; the list must not be empty and its
    tensors must have one shape. *)
Definition stack (ts : list (tensor F)) : result (tensor F) :=
  match ts with
  | [] => Raise RuntimeError
  | t :: ts' =>
      if forallb (fun u => shape_eqb (shape u) (shape t)) ts'
      then Ok (mkT (length ts :: shape t) (concat (map data ts)))
      else Raise RuntimeError
  end.

(** [torch.zeros] of the sizes [s]. *)
Definition zeros (s : list nat) : tensor F := mkT s (repeat fzero (numel s)).

(** [t.reshape] to the sizes [s]: the same elements in the same row-major order. *)
Definition reshape (t : tensor F) (s : list nat) : result (tensor F) :=
  if numel (shape t) =? numel s then Ok (mkT s (data t)) else Raise RuntimeError.

(** Broadcasting of two shapes, read from the trailing axis. *)
Fixpoint broadcast_rev (s1 s2 : list nat) : result (list nat) :=
  match s1, s2 with
  | [], _ => Ok s2
  | _, [] => Ok s1
  | a :: s1', b :: s2' =>
      if a =? b then r <- broadcast_rev s1' s2' ;; Ok (a :: r)
      else if a =? 1 then r <- broadcast_rev s1' s2' ;; Ok (b :: r)
      else if b =? 1 then r <- broadcast_rev s1' s2' ;; Ok (a :: r)
      else Raise RuntimeError
  end.

Definition broadcast_shapes (s1 s2 : list nat) : result (list nat) :=
  r <- broadcast_rev (rev s1) (rev s2) ;; Ok (rev r).

(** The elements of a tensor of shape [s] expanded to shape [t], where the
    two shapes have one rank and each axis of [s] is that of [t] or 1. *)
Fixpoint expand_data (s t : list nat) (d : list F) : list F :=
  match s, t with
  | a :: s', b :: t' =>
      let rows := map (expand_data s' t') (chunks a (numel s') d) in
      if a =? b then concat rows else concat (repeat (concat rows) b)
  | _, _ => d
  end.

Definition expand (t : tensor F) (s : list nat) : list F :=
  expand_data (repeat 1 (length s - length (shape t)) ++ shape t) s (data t).

Fixpoint map2 (f : F -> F -> F) (u v : list F) : list F :=
  match u, v with
  | a :: u', b :: v' => f a b :: map2 f u' v'
  | _, _ => []
  end.

(** [a + b] on tensors. *)
Definition add (a b : tensor F) : result (tensor F) :=
  s <- broadcast_shapes (shape a) (shape b) ;;
  Ok (mkT s (map2 fadd (expand a s) (expand b s))).

(** [torch.tanh]. *)
Definition tanh (t : tensor F) : tensor F := mkT (shape t) (map ftanh (data t)).

(** The sum of products of two rows, accumulated from the left. *)
Definition dot (u v : list F) : F :=
  fold_left (fun acc p => fadd acc (fmul (fst p) (snd p))) (combine u v) fzero.

(** An axis of size [k] seen as one of size [n]: itself, or its one element
    repeated. *)
Definition bcast (n k : nat) (l : list F) : list F :=
  if k =? n then l else concat (repeat l n).

(** [torch.einsum('ij,j', w, x)]: the matrix-vector product.  The summed
    axis must agree in both operands, or have size 1 in one of them. *)
Definition einsum_ij_j (w x : tensor F) : result (tensor F) :=
  match shape w, shape x with
  | [i; j], [j'] =>
      if (j =? j') || (j =? 1) || (j' =? 1) then
        let n := if j =? 1 then j' else j in
        Ok (mkT [i] (map (fun row => dot (bcast n j row) (bcast n j' (data x)))
                         (chunks i j (data w))))
      else Raise RuntimeError
  | _, _ => Raise RuntimeError
  end.

(** The [b] columns of a list of rows. *)
Definition transpose {A} (b : nat) (rows : list (list (list A))) : list (list (list A)) :=
  map (fun j => map (fun r => nth j r []) rows) (seq 0 b).

(** [torch.einsum('ijk->jik', t)]: the first two axes exchanged. *)
Definition einsum_ijk_jik (t : tensor F) : result (tensor F) :=
  match shape t with
  | [a; b; c] =>
      Ok (mkT [b; a; c]
              (concat (concat (transpose b (map (chunks b c) (chunks a (b * c) (data t)))))))
  | _ => Raise RuntimeError
  end.

End Ops.
End Torch.
Import Torch.

(** ** The notebook: its global [N] and the class [RNN] *)

(** The module-level names that the class reads. *)
Record globals : Type := { N : option nat }.

Section Model.
Context {F : Type} {SF : Scalar F}.

Record RNN : Type := {
  input_size : nat;
  hidden_size : nat;
  num_layers : nat;
  ws_ih : list (tensor F);
  ws_hh : list (tensor F);
  bs_ih : list (tensor F);
  bs_hh : list (tensor F)
}.

(** [layer_input_size] of [__init__]. *)
Definition layer_input_size (self : RNN) (layer : nat) : nat :=
  if layer =? 0 then input_size self else hidden_size self.

(** A parameter of shape [s] that holds its elements. *)
Definition param_ok (s : list nat) (p : tensor F) : bool :=
  shape_eqb (shape p) s && (length (data p) =? numel s).

Fixpoint params_ok (s : nat -> list nat) (layer : nat) (ps : list (tensor F)) : bool :=
  match ps with
  | [] => true
  | p :: ps' => param_ok (s layer) p && params_ok s (S layer) ps'
  end.

(** What [__init__] builds: one tensor of each kind per layer, of the
    shapes it passes to [_init_weight_]. *)
Definition init_inv (self : RNN) : bool :=
  (length (ws_ih self) =? num_layers self)
  && (length (ws_hh self) =? num_layers self)
  && (length (bs_ih self) =? num_layers self)
  && (length (bs_hh self) =? num_layers self)
  && params_ok (fun l => [hidden_size self; layer_input_size self l]) 0 (ws_ih self)
  && params_ok (fun _ => [hidden_size self; hidden_size self]) 0 (ws_hh self)
  && params_ok (fun _ => [hidden_size self]) 0 (bs_ih self)
  && params_ok (fun _ => [hidden_size self]) 0 (bs_hh self).

(** A cell: what [cum_map] calls at each step. *)
Definition cell : Type := tensor F -> tensor F -> result (tensor F).

(** The loop of [cum_map]: [h] and [cum_results] after the remaining [xs]. *)
Fixpoint cum_map_loop (f : cell) (xs : list (tensor F)) (h : tensor F)
    (cum_results : list (tensor F)) : result (list (tensor F) * tensor F) :=
  match xs with
  | [] => Ok (cum_results, h)
  | x :: xs' =>
      h' <- f x h ;;
      cum_map_loop f xs' h' (cum_results ++ [h'])
  end.

(** [RNN.cum_map]. *)
Definition cum_map (f : cell) (xs : tensor F) (h : tensor F)
    : result (tensor F * tensor F) :=
  xs' <- iter xs ;;
  '(cum_results, h') <- cum_map_loop f xs' h [] ;;
  s <- stack cum_results ;;
  Ok (s, h').

(** [RNN.tanh_cell]. *)
Definition tanh_cell (x h w_ih w_hh b_ih b_hh : tensor F) : result (tensor F) :=
  a <- einsum_ij_j w_ih x ;;
  b <- einsum_ij_j w_hh h ;;
  s1 <- add a b ;;
  s2 <- add s1 b_ih ;;
  s3 <- add s2 b_hh ;;
  Ok (tanh s3).

(** What [layers_forward] takes as [f]: a cell still to be given the four
    parameters of a layer. *)
Definition cell_fn : Type :=
  tensor F -> tensor F -> tensor F -> tensor F -> tensor F -> tensor F -> result (tensor F).

(** [partial(f, w_ih=self.ws_ih[i_layer], ...)]. *)
Definition f_partial (self : RNN) (f : cell_fn) (i_layer : nat) : result cell :=
  w_ih <- index (ws_ih self) i_layer ;;
  w_hh <- index (ws_hh self) i_layer ;;
  b_ih <- index (bs_ih self) i_layer ;;
  b_hh <- index (bs_hh self) i_layer ;;
  Ok (fun x h => f x h w_ih w_hh b_ih b_hh).

(** The loop of [layers_forward] over [enumerate(h_inits)]. *)
Fixpoint layers_loop (self : RNN) (f : cell_fn) (items : list (nat * tensor F))
    (x : tensor F) (hs_L : list (tensor F)) : result (tensor F * list (tensor F)) :=
  match items with
  | [] => Ok (x, hs_L)
  | (i_layer, h_0) :: items' =>
      g <- f_partial self f i_layer ;;
      '(x', h_L) <- cum_map g x h_0 ;;
      layers_loop self f items' x' (hs_L ++ [h_L])
  end.

(** [RNN.layers_forward]. *)
Definition layers_forward (self : RNN) (f : cell_fn) (x h_inits : tensor F)
    : result (tensor F * tensor F) :=
  rows <- iter h_inits ;;
  '(x', hs_L) <- layers_loop self f (enumerate rows) x [] ;;
  s <- stack hs_L ;;
  Ok (x', s).

(** [RNN.batch_forward]. *)
Definition batch_forward (self : RNN) (x h_0 : tensor F) : result (tensor F * tensor F) :=
  layers_forward self tanh_cell x h_0.

(** The loop of [__call__] over [zip(x, h_0)]. *)
Fixpoint batch_loop (self : RNN) (pairs : list (tensor F * tensor F))
    (batch_hs batch_hn : list (tensor F)) : result (list (tensor F) * list (tensor F)) :=
  match pairs with
  | [] => Ok (batch_hs, batch_hn)
  | (x_batch, h_0_batch) :: pairs' =>
      '(hs, hn) <- batch_forward self x_batch h_0_batch ;;
      batch_loop self pairs' (batch_hs ++ [hs]) (batch_hn ++ [hn])
  end.

(** Reading the global [N]. *)
Definition global_N (g : globals) : result nat :=
  match N g with
  | Some n => Ok n
  | None => Raise NameError
  end.

(** [RNN.__call__], the forward pass, in the scope of the globals [g]. *)
Definition __call__ (self : RNN) (g : globals) (x : tensor F) (h_0 : option (tensor F))
    : result (tensor F * tensor F) :=
  h_0 <- match h_0 with
         | None => n <- global_N g ;; Ok (zeros [num_layers self; n; hidden_size self])
         | Some h => Ok h
         end ;;
  n <- global_N g ;;
  h_0 <- reshape h_0 [n; num_layers self; hidden_size self] ;;
  xs <- iter x ;;
  hs <- iter h_0 ;;
  '(batch_hs, batch_hn) <- batch_loop self (combine xs hs) [] [] ;;
  out <- stack batch_hs ;;
  hn <- stack batch_hn ;;
  h_L <- einsum_ijk_jik hn ;;
  Ok (out, h_L).

End Model.

(** ** The notions the statements are written in *)

Section Notions.
Context {F : Type} {SF : Scalar F}.

(** A tensor of shape [s] that holds its elements. *)
Definition has_shape (s : list nat) (t : tensor F) : Prop := wf t /\ shape t = s.

(** A cell from inputs of shape [sx] and hidden states of shape [sh] to
    hidden states of shape [sh]. *)
Definition cell_typed (f : cell) (sx sh : list nat) : Prop :=
  forall x h, has_shape sx x -> has_shape sh h ->
    exists h', f x h = Ok h' /\ has_shape sh h'.

(** The first [n] layers of [self] give [f] typed cells: layer 0 reads
    inputs of shape [sx], every later layer reads the states of the layer
    below it. *)
Definition layers_typed (self : RNN) (f : cell_fn) (n : nat) (sx sh : list nat) : Prop :=
  forall l, l < n ->
    exists g, f_partial self f l = Ok g /\ cell_typed g (if l =? 0 then sx else sh) sh.

(** What [batch_forward] returns for one row of a batch of sequences of
    length [L]: the output sequence and the final states of the layers. *)
Definition row_result (self : @RNN F) (L : nat) (r : tensor F * tensor F) : Prop :=
  has_shape [L; hidden_size self] (fst r) /\
  has_shape [num_layers self; hidden_size self] (snd r).

(** The result [r] of one row seen as the result of a batch of size 1. *)
Definition single_result (self : @RNN F) (L : nat) (r : tensor F * tensor F)
    : tensor F * tensor F :=
  (mkT [1; L; hidden_size self] (data (fst r)),
   mkT [num_layers self; 1; hidden_size self] (data (snd r))).

(** [g 0 + g 1 + ... + g (n-1)], accumulated from the left. *)
Fixpoint fsum (n : nat) (g : nat -> F) : F :=
  match n with
  | 0 => fzero
  | S k => fadd (fsum k g) (g k)
  end.

(** Row [i] of the matrix-vector product [w . x], for [w] with [d] columns. *)
Definition matvec_at (w x : tensor F) (d i : nat) : F :=
  fsum d (fun j => fmul (nth (i * d + j) (data w) fzero) (nth j (data x) fzero)).

(** The rows of the matrix-vector product, as [einsum_ij_j] computes them. *)
Definition matvec (w x : tensor F) (r c : nat) : list F :=
  map (fun row => dot row (data x)) (chunks r c (data w)).

(** [t[n]]. *)
Definition sub (t : tensor F) (n : nat) : tensor F :=
  mkT (tl (shape t))
      (firstn (numel (tl (shape t))) (skipn (n * numel (tl (shape t))) (data t))).

(** [t[n:n+1]]: the batch of size 1 that holds row [n]. *)
Definition slice (t : tensor F) (n : nat) : tensor F :=
  mkT (1 :: shape (sub t n)) (data (sub t n)).

(** [torch.cat(ts, dim=0)] for tensors that agree on every axis but the first. *)
Definition cat0 (ts : list (tensor F)) : result (tensor F) :=
  match ts with
  | [] => Raise RuntimeError
  | t :: _ =>
      if forallb (fun u => shape_eqb (tl (shape u)) (tl (shape t))
                           && negb (length (shape u) =? 0)) ts
      then Ok (mkT (list_sum (map (fun u => hd 0 (shape u)) ts) :: tl (shape t))
                   (concat (map data ts)))
      else Raise RuntimeError
  end.

(** [torch.cat(ts, dim=1)] for tensors that agree on every axis but the second. *)
Definition cat1 (ts : list (tensor F)) : result (tensor F) :=
  match ts with
  | [] => Raise RuntimeError
  | t :: _ =>
      if forallb (fun u => (hd 0 (shape u) =? hd 0 (shape t))
                           && shape_eqb (tl (tl (shape u))) (tl (tl (shape t)))
                           && (2 <=? length (shape u))) ts
      then Ok (mkT (hd 0 (shape t) :: list_sum (map (fun u => hd 0 (tl (shape u))) ts)
                      :: tl (tl (shape t)))
                   (concat (map (fun i => concat (map (fun u => data (sub u i)) ts))
                                (seq 0 (hd 0 (shape t))))))
      else Raise RuntimeError
  end.

End Notions.

(** ** Concrete models and inputs, over the real numbers *)

Module Fixtures.

#[export] Instance R_scalar : Scalar R :=
  {| fzero := 0%R; fadd := Rplus; fmul := Rmult; ftanh := Rtrigo_def.tanh |}.

(** One layer with [H_in = H_out = 2], [W_ih] the identity, [W_hh] and the
    biases zero. *)
Definition rnn1 : @RNN R :=
  {| input_size := 2; hidden_size := 2; num_layers := 1;
     ws_ih := [mkT [2; 2] [1; 0; 0; 1]%R];
     ws_hh := [mkT [2; 2] [0; 0; 0; 0]%R];
     bs_ih := [mkT [2] [0; 0]%R];
     bs_hh := [mkT [2] [0; 0]%R] |}.

(** Two layers with [H_in = 2] and [H_out = 1]. *)
Definition rnn2 : @RNN R :=
  {| input_size := 2; hidden_size := 1; num_layers := 2;
     ws_ih := [mkT [1; 2] [1; 1]%R; mkT [1; 1] [1]%R];
     ws_hh := [mkT [1; 1] [1]%R; mkT [1; 1] [0]%R];
     bs_ih := [mkT [1] [0]%R; mkT [1] [1]%R];
     bs_hh := [mkT [1] [0]%R; mkT [1] [0]%R] |}.

(** The cell of the layer of [rnn1]. *)
Definition cell1 : @cell R :=
  fun x h => tanh_cell x h (mkT [2; 2] [1; 0; 0; 1]%R) (mkT [2; 2] [0; 0; 0; 0]%R)
                       (mkT [2] [0; 0]%R) (mkT [2] [0; 0]%R).

(** A sequence of three inputs, and a sequence of none. *)
Definition x_seq : tensor R := mkT [3; 2] [1; 0; 0; 1; 1; 1]%R.
Definition x_none : tensor R := mkT [0; 2] [].

(** Batches of two and of three sequences of length 3, and a batch of one
    sequence of length 0. *)
Definition x_two : tensor R := mkT [2; 3; 2] [1; 0; 0; 1; 1; 1; 2; 0; 0; 2; 2; 2]%R.
Definition x_three : tensor R :=
  mkT [3; 3; 2] [1; 0; 0; 1; 1; 1; 2; 0; 0; 2; 2; 2; 3; 0; 0; 3; 3; 3]%R.
Definition x_empty : tensor R := mkT [1; 0; 2] [].

(** Initial hidden states. *)
Definition h_vec : tensor R := mkT [2] [0; 0]%R.
Definition h_two : tensor R := mkT [2; 1; 2] [1; 2; 3; 4]%R.
Definition h_two_transposed : tensor R := mkT [1; 2; 2] [1; 2; 3; 4]%R.
Definition h_layers2 : tensor R := mkT [2; 1] [0; 0]%R.
Definition h_layers1 : tensor R := mkT [1; 1] [0]%R.
Definition h_layers3 : tensor R := mkT [3; 1] [0; 0; 0]%R.

End Fixtures.

(** ** Facts about pieces of lists *)

Section ListFacts.
Context {A : Type}.

Lemma chunks_length (n k : nat) (l : list A) : length (chunks n k l) = n.
Proof.
  revert l; induction n as [|n IH]; intros l; simpl; [reflexivity|].
  now rewrite IH.
Qed.

Lemma chunks_all_length (n k : nat) (l : list A) :
  length l = n * k -> Forall (fun c => length c = k) (chunks n k l).
Proof.
  revert l; induction n as [|n IH]; intros l Hl; simpl; constructor.
  - rewrite length_firstn. simpl in Hl. lia.
  - apply IH. rewrite length_skipn. simpl in Hl. lia.
Qed.

Lemma concat_chunks (n k : nat) (l : list A) :
  length l = n * k -> concat (chunks n k l) = l.
Proof.
  revert l; induction n as [|n IH]; intros l Hl; simpl.
  - simpl in Hl. now destruct l.
  - rewrite IH.
    + apply firstn_skipn.
    + rewrite length_skipn. simpl in Hl. lia.
Qed.

Lemma chunks_concat (k : nat) (cs : list (list A)) :
  Forall (fun c => length c = k) cs -> chunks (length cs) k (concat cs) = cs.
Proof.
  induction cs as [|c cs IH]; intros Hall; simpl; [reflexivity|].
  inversion Hall as [|? ? Hc Hrest]; subst.
  rewrite firstn_app, skipn_app, Nat.sub_diag, firstn_all, skipn_all. simpl.
  rewrite app_nil_r. f_equal. now apply IH.
Qed.

Lemma length_concat_uniform (k : nat) (cs : list (list A)) :
  Forall (fun c => length c = k) cs -> length (concat cs) = length cs * k.
Proof.
  induction 1 as [|c cs Hc _ IH]; simpl; [reflexivity|].
  rewrite length_app. lia.
Qed.

Lemma nth_chunks (n k i : nat) (l : list A) :
  i < n -> nth i (chunks n k l) [] = firstn k (skipn (i * k) l).
Proof.
  revert i l; induction n as [|n IH]; intros i l Hi; [lia|].
  destruct i as [|i]; simpl; [reflexivity|].
  rewrite IH by lia. now rewrite skipn_skipn, Nat.add_comm.
Qed.

Lemma nth_firstn_skipn (k m j : nat) (l : list A) (d : A) :
  j < k -> nth j (firstn k (skipn m l)) d = nth (m + j) l d.
Proof.
  intros Hj. rewrite nth_firstn.
  destruct (Nat.ltb_spec j k); [|lia].
  rewrite nth_skipn. reflexivity.
Qed.

Lemma nth_nth_chunks (n k i j : nat) (l : list A) (d : A) :
  i < n -> j < k -> nth j (nth i (chunks n k l) []) d = nth (i * k + j) l d.
Proof.
  intros Hi Hj. rewrite nth_chunks by assumption. now apply nth_firstn_skipn.
Qed.

Lemma nth_concat_uniform (k i j : nat) (cs : list (list A)) (d : A) :
  Forall (fun c => length c = k) cs -> i < length cs -> j < k ->
  nth (i * k + j) (concat cs) d = nth j (nth i cs []) d.
Proof.
  intros Hall; revert i; induction Hall as [|c cs Hc _ IH]; intros i Hi Hj;
    simpl in Hi; [lia|].
  destruct i as [|i]; simpl.
  - rewrite app_nth1 by lia. reflexivity.
  - rewrite app_nth2 by lia.
    replace (k + i * k + j - length c) with (i * k + j) by lia.
    apply IH; lia.
Qed.

Lemma concat_concat (xss : list (list (list A))) :
  concat (concat xss) = concat (map (@concat A) xss).
Proof.
  induction xss as [|xs xss IH]; simpl; [reflexivity|].
  now rewrite concat_app, IH.
Qed.

End ListFacts.

(** ** Facts about tensors *)

Section TensorFacts.
Context {F : Type} {SF : Scalar F}.

Lemma shape_eqb_true (s1 s2 : list nat) : shape_eqb s1 s2 = true <-> s1 = s2.
Proof.
  revert s2; induction s1 as [|a s1 IH]; intros [|b s2]; simpl;
    try (split; [discriminate|discriminate]); [tauto|].
  rewrite andb_true_iff, Nat.eqb_eq, IH. split; [intros [-> ->]|intros H; injection H]; auto.
Qed.

Lemma shape_eqb_refl (s : list nat) : shape_eqb s s = true.
Proof. now apply shape_eqb_true. Qed.

Lemma iter_eq (t : tensor F) (n : nat) (s : list nat) :
  shape t = n :: s -> iter t = Ok (map (mkT s) (chunks n (numel s) (data t))).
Proof. intros Hs. unfold iter. now rewrite Hs. Qed.

Lemma iter_rows_shape (t : tensor F) (n : nat) (s : list nat) :
  has_shape (n :: s) t ->
  Forall (has_shape s) (map (mkT s) (chunks n (numel s) (data t))).
Proof.
  intros [Hwf Hs]. unfold wf in Hwf. rewrite Hs in Hwf. simpl in Hwf.
  apply Forall_map.
  eapply Forall_impl; [|apply chunks_all_length; exact Hwf].
  intros c Hc. split; [exact Hc|reflexivity].
Qed.

Lemma map_mkT_data (s : list nat) (ts : list (tensor F)) :
  Forall (fun t => shape t = s) ts -> map (mkT s) (map data ts) = ts.
Proof.
  induction 1 as [|t ts Ht _ IH]; simpl; [reflexivity|].
  rewrite IH. f_equal. destruct t as [st dt]; simpl in *. now subst.
Qed.

Lemma stack_eq (s : list nat) (ts : list (tensor F)) :
  ts <> [] -> Forall (fun t => shape t = s) ts ->
  stack ts = Ok (mkT (length ts :: s) (concat (map data ts))).
Proof.
  intros Hne Hall. destruct ts as [|t ts]; [congruence|].
  inversion Hall as [|? ? Ht Hts]; subst. unfold stack.
  replace (forallb _ ts) with true; [reflexivity|].
  symmetry. apply forallb_forall. intros u Hu.
  apply shape_eqb_true. rewrite Forall_forall in Hts. now apply Hts.
Qed.

Lemma stacked_has_shape (s : list nat) (ts : list (tensor F)) :
  Forall (has_shape s) ts ->
  has_shape (length ts :: s) (mkT (length ts :: s) (concat (map data ts))).
Proof.
  intros Hall. split; [|reflexivity]. unfold wf; simpl.
  rewrite (@length_concat_uniform _ (numel s)).
  - now rewrite length_map.
  - apply Forall_map. eapply Forall_impl; [|exact Hall].
    intros t [Hwf Hs]. unfold wf in Hwf. now rewrite Hs in Hwf.
Qed.

Lemma iter_stacked (s : list nat) (ts : list (tensor F)) :
  Forall (has_shape s) ts ->
  iter (mkT (length ts :: s) (concat (map data ts))) = Ok ts.
Proof.
  intros Hall. unfold iter; simpl.
  rewrite <- (length_map data ts), chunks_concat.
  - rewrite map_mkT_data; [reflexivity|].
    eapply Forall_impl; [|exact Hall]. now intros t [_ Hs].
  - apply Forall_map. eapply Forall_impl; [|exact Hall].
    intros t [Hwf Hs]. unfold wf in Hwf. now rewrite Hs in Hwf.
Qed.

Lemma stacked_has_shape_n (s : list nat) (ts : list (tensor F)) (n : nat) :
  length ts = n -> Forall (has_shape s) ts ->
  has_shape (n :: s) (mkT (n :: s) (concat (map data ts))).
Proof. intros <-. apply stacked_has_shape. Qed.

Lemma iter_stacked_n (s : list nat) (ts : list (tensor F)) (n : nat) :
  length ts = n -> Forall (has_shape s) ts ->
  iter (mkT (n :: s) (concat (map data ts))) = Ok ts.
Proof. intros <-. apply iter_stacked. Qed.

Lemma has_shape_shapes (s : list nat) (ts : list (tensor F)) :
  Forall (has_shape s) ts -> Forall (fun t => shape t = s) ts.
Proof. apply Forall_impl. now intros t [_ Hs]. Qed.

End TensorFacts.

(** ** The sequence scan [cum_map] *)

Section ScanFacts.
Context {F : Type} {SF : Scalar F}.

Lemma last_nonempty_default (A : Type) (l : list A) (b d d' : A) :
  last (b :: l) d = last (b :: l) d'.
Proof.
  revert b; induction l as [|c l IH]; intros b; [reflexivity|].
  change (last (c :: l) d = last (c :: l) d'). apply IH.
Qed.

Lemma last_cons_default (A : Type) (l : list A) (a d : A) : last (a :: l) d = last l a.
Proof.
  destruct l as [|b l]; [reflexivity|].
  change (last (b :: l) d = last (b :: l) a). apply last_nonempty_default.
Qed.

Lemma cum_map_loop_scan (f : cell) (sx sh : list nat) (xs : list (tensor F)) :
  cell_typed f sx sh -> Forall (has_shape sx) xs ->
  forall (h : tensor F) (acc : list (tensor F)), has_shape sh h ->
  exists hs,
    length hs = length xs /\ Forall (has_shape sh) hs /\
    (forall t x, nth_error xs t = Some x ->
       exists hp hn, nth_error (h :: hs) t = Some hp /\ nth_error hs t = Some hn /\
                     f x hp = Ok hn) /\
    cum_map_loop f xs h acc = Ok (acc ++ hs, last hs h).
Proof.
  intros Hf Hxs; induction Hxs as [|x xs Hx _ IH]; intros h acc Hh.
  - exists []. repeat split; try constructor.
    + intros [|t] x Hn; discriminate.
    + simpl. now rewrite app_nil_r.
  - destruct (Hf x h Hx Hh) as (h' & Hstep & Hh').
    destruct (IH h' (acc ++ [h']) Hh') as (hs & Hlen & Hall & Hchain & Hloop).
    exists (h' :: hs). repeat split.
    + simpl. now rewrite Hlen.
    + now constructor.
    + intros [|t] y Hn; simpl in Hn.
      * injection Hn as <-. exists h, h'. now repeat split.
      * destruct (Hchain t y Hn) as (hp & hn & Hp & Hq & Hr).
        exists hp, hn. now repeat split.
    + cbn [cum_map_loop]. rewrite Hstep. cbn [bind].
      now rewrite Hloop, <- app_assoc, last_cons_default.
Qed.

Lemma cum_map_shapes (f : cell) (xs h0 : tensor F) (L : nat) (sx sh : list nat) :
  1 <= L -> has_shape (L :: sx) xs -> has_shape sh h0 -> cell_typed f sx sh ->
  exists out hL, cum_map f xs h0 = Ok (out, hL) /\
                 has_shape (L :: sh) out /\ has_shape sh hL.
Proof.
  intros HL Hxs Hh Hf.
  pose proof (iter_rows_shape Hxs) as Hrows.
  destruct (cum_map_loop_scan Hf Hrows [] Hh) as (hs & Hlen & Hall & _ & Hloop).
  rewrite length_map, chunks_length in Hlen.
  unfold cum_map. rewrite (iter_eq _ (proj2 Hxs)). simpl. rewrite Hloop. simpl.
  rewrite (stack_eq (s:=sh) (ts:=hs)).
  - simpl. eexists _, _. split; [reflexivity|]. split.
    + rewrite <- Hlen. now apply stacked_has_shape.
    + destruct hs as [|a hs]; [simpl in Hlen; lia|].
      rewrite Forall_forall in Hall. apply Hall.
      rewrite (app_removelast_last h0 (l:=a :: hs)) at 2 by discriminate.
      apply in_or_app. right. now left.
  - destruct hs; [simpl in Hlen; lia|discriminate].
  - now apply has_shape_shapes.
Qed.

(** The scan of an empty sequence: the empty list of results cannot be stacked. *)
Lemma cum_map_empty (f : cell) (xs h : tensor F) (s : list nat) :
  shape xs = 0 :: s -> cum_map f xs h = Raise RuntimeError.
Proof.
  intros Hs. unfold cum_map. rewrite (iter_eq _ Hs). reflexivity.
Qed.

(** C5: for a cell [f] from inputs of shape [sx] and states of shape [sh]
    to states of shape [sh], a sequence [xs] of [L >= 1] inputs and an
    initial state [h0], [cum_map] returns the tensor whose rows are exactly
    [h_1 .. h_L], where [h_t = f x_t h_(t-1)] for each step, together with
    [h_L]: a strict left fold. *)
Theorem cum_map_left_fold (f : cell) (xs h0 : tensor F) (L : nat) (sx sh : list nat) :
  1 <= L -> has_shape (L :: sx) xs -> has_shape sh h0 -> cell_typed f sx sh ->
  exists rows hs out,
    iter xs = Ok rows /\ length rows = L /\ length hs = L /\
    (forall t x, nth_error rows t = Some x ->
       exists hp hn, nth_error (h0 :: hs) t = Some hp /\ nth_error hs t = Some hn /\
                     f x hp = Ok hn) /\
    cum_map f xs h0 = Ok (out, last hs h0) /\
    has_shape (L :: sh) out /\ iter out = Ok hs.
Proof.
  intros HL Hxs Hh Hf.
  pose proof (iter_rows_shape Hxs) as Hrows.
  destruct (cum_map_loop_scan Hf Hrows [] Hh) as (hs & Hlen & Hall & Hchain & Hloop).
  rewrite length_map, chunks_length in Hlen.
  exists (map (mkT sx) (chunks L (numel sx) (data xs))), hs,
         (mkT (length hs :: sh) (concat (map data hs))).
  split; [apply iter_eq, Hxs|].
  split; [now rewrite length_map, chunks_length|].
  split; [exact Hlen|].
  split; [exact Hchain|].
  split; [|split].
  - unfold cum_map. rewrite (iter_eq _ (proj2 Hxs)). cbn [bind]. rewrite Hloop.
    cbn [bind app]. rewrite (stack_eq (s:=sh) (ts:=hs)); [reflexivity| |].
    + destruct hs; [simpl in Hlen; lia|discriminate].
    + now apply has_shape_shapes.
  - rewrite <- Hlen. now apply stacked_has_shape.
  - now apply iter_stacked.
Qed.

End ScanFacts.

(** ** The recurrent cell [tanh_cell] *)

Section CellFacts.
Context {F : Type} {SF : Scalar F}.

Lemma broadcast_rev_same (s : list nat) : broadcast_rev s s = Ok s.
Proof.
  induction s as [|a s IH]; simpl; [reflexivity|].
  now rewrite Nat.eqb_refl, IH.
Qed.

Lemma broadcast_shapes_same (s : list nat) : broadcast_shapes s s = Ok s.
Proof.
  unfold broadcast_shapes. rewrite broadcast_rev_same. simpl.
  now rewrite rev_involutive.
Qed.

Lemma expand_data_same (s : list nat) (d : list F) :
  length d = numel s -> expand_data s s d = d.
Proof.
  revert d; induction s as [|a s IH]; intros d Hd; simpl; [reflexivity|].
  rewrite Nat.eqb_refl. simpl in Hd.
  rewrite <- (concat_chunks a (numel s) d Hd) at 2. f_equal.
  rewrite <- (map_id (chunks a (numel s) d)) at 2.
  apply map_ext_in. intros c Hc. apply IH.
  pose proof (chunks_all_length a (numel s) d Hd) as Hall.
  rewrite Forall_forall in Hall. now apply Hall.
Qed.

Lemma expand_same (t : tensor F) : wf t -> expand t (shape t) = data t.
Proof.
  intros Hwf. unfold expand. rewrite Nat.sub_diag. simpl.
  now apply expand_data_same.
Qed.

Lemma map2_length (f : F -> F -> F) (u v : list F) :
  length u = length v -> length (map2 f u v) = length u.
Proof.
  revert v; induction u as [|a u IH]; intros [|b v] H; simpl in *; try lia.
  now rewrite IH by lia.
Qed.

Lemma map2_nth (f : F -> F -> F) (u v : list F) (i : nat) (d : F) :
  length u = length v -> i < length u ->
  nth i (map2 f u v) d = f (nth i u d) (nth i v d).
Proof.
  revert v i; induction u as [|a u IH]; intros [|b v] i H Hi; simpl in *; try lia.
  destruct i as [|i]; [reflexivity|]. apply IH; lia.
Qed.

Lemma add_same_shape (s : list nat) (a b : tensor F) :
  has_shape s a -> has_shape s b ->
  add a b = Ok (mkT s (map2 fadd (data a) (data b))).
Proof.
  intros [Ha Hsa] [Hb Hsb]. unfold add. rewrite Hsa, Hsb, broadcast_shapes_same.
  cbn [bind]. rewrite <- Hsa at 2. rewrite <- Hsb at 2.
  now rewrite !expand_same.
Qed.

Lemma added_has_shape (s : list nat) (a b : tensor F) :
  has_shape s a -> has_shape s b ->
  has_shape s (mkT s (map2 fadd (data a) (data b))).
Proof.
  intros [Ha Hsa] [Hb Hsb]. unfold wf in *. split; [|reflexivity].
  unfold wf; simpl. rewrite map2_length; rewrite Ha, ?Hb, Hsa, ?Hsb; reflexivity.
Qed.

Lemma fsum_ext (n : nat) (g g' : nat -> F) :
  (forall j, j < n -> g j = g' j) -> fsum n g = fsum n g'.
Proof.
  induction n as [|n IH]; intros H; simpl; [reflexivity|].
  rewrite IH, H by auto. reflexivity.
Qed.

Lemma list_snoc (A : Type) (l : list A) (n : nat) :
  length l = S n -> exists l' a, l = l' ++ [a] /\ length l' = n.
Proof.
  intros Hl. destruct (@exists_last _ l) as (l' & a & ->).
  - destruct l; [discriminate|congruence].
  - exists l', a. split; [reflexivity|]. rewrite length_app in Hl. simpl in Hl. lia.
Qed.

Lemma combine_snoc (A B : Type) (u : list A) (v : list B) (a : A) (b : B) :
  length u = length v -> combine (u ++ [a]) (v ++ [b]) = combine u v ++ [(a, b)].
Proof.
  revert v; induction u as [|x u IH]; intros [|y v] H; simpl in *; try lia.
  - reflexivity.
  - now rewrite IH by lia.
Qed.

Lemma dot_fsum (n : nat) (u v : list F) :
  length u = n -> length v = n ->
  dot u v = fsum n (fun j => fmul (nth j u fzero) (nth j v fzero)).
Proof.
  revert u v; induction n as [|n IH]; intros u v Hu Hv.
  - destruct u; [reflexivity|discriminate].
  - destruct (@list_snoc _ u n Hu) as (u' & a & -> & Hu').
    destruct (@list_snoc _ v n Hv) as (v' & b & -> & Hv').
    unfold dot. rewrite combine_snoc by lia. rewrite fold_left_app. simpl.
    fold (dot u' v'). rewrite (IH u' v' Hu' Hv'). f_equal.
    + apply fsum_ext. intros j Hj. now rewrite !app_nth1 by lia.
    + rewrite !app_nth2 by lia. rewrite Hu', Hv', Nat.sub_diag. reflexivity.
Qed.

Lemma einsum_ij_j_eq (w x : tensor F) (r c : nat) :
  shape w = [r; c] -> shape x = [c] ->
  einsum_ij_j w x = Ok (mkT [r] (matvec w x r c)).
Proof.
  intros Hw Hx. unfold einsum_ij_j, matvec. rewrite Hw, Hx, Nat.eqb_refl. simpl.
  unfold bcast. destruct (c =? 1); rewrite Nat.eqb_refl; reflexivity.
Qed.

Lemma matvec_has_shape (w x : tensor F) (r c : nat) :
  has_shape [r] (mkT [r] (matvec w x r c)).
Proof.
  split; [|reflexivity]. unfold wf, matvec; simpl.
  rewrite length_map, chunks_length. lia.
Qed.

Lemma matvec_nth (w x : tensor F) (r c i : nat) :
  has_shape [r; c] w -> has_shape [c] x -> i < r ->
  nth i (matvec w x r c) fzero = matvec_at w x c i.
Proof.
  intros [Hw Hsw] [Hx Hsx] Hi. unfold wf in Hw, Hx. rewrite Hsw in Hw. rewrite Hsx in Hx.
  simpl in Hw, Hx. unfold matvec, matvec_at.
  rewrite (nth_indep _ fzero (dot [] (data x)))
    by (rewrite length_map, chunks_length; exact Hi).
  rewrite (map_nth (fun row => dot row (data x))).
  assert (Hrow : length (nth i (chunks r c (data w)) []) = c).
  { assert (Hall : Forall (fun k => length k = c) (chunks r c (data w)))
      by (apply chunks_all_length; lia).
    rewrite Forall_forall in Hall. apply Hall, nth_In. now rewrite chunks_length. }
  rewrite (@dot_fsum c _ (data x) Hrow) by lia.
  apply fsum_ext. intros j Hj. now rewrite nth_nth_chunks.
Qed.

Lemma tanh_has_shape (s : list nat) (t : tensor F) : has_shape s t -> has_shape s (tanh t).
Proof.
  intros [Hwf Hs]. split; [|exact Hs]. unfold wf, tanh in *; simpl.
  now rewrite length_map.
Qed.

Section Cell.
Variables (x h w_ih w_hh b_ih b_hh : tensor F) (D H : nat).
Hypothesis Hx : has_shape [D] x.
Hypothesis Hh : has_shape [H] h.
Hypothesis Hw_ih : has_shape [H; D] w_ih.
Hypothesis Hw_hh : has_shape [H; H] w_hh.
Hypothesis Hb_ih : has_shape [H] b_ih.
Hypothesis Hb_hh : has_shape [H] b_hh.

(** The sum inside the tanh, in the order the code adds it up. *)
Let s1 : tensor F := mkT [H] (map2 fadd (matvec w_ih x H D) (matvec w_hh h H H)).
Let s2 : tensor F := mkT [H] (map2 fadd (data s1) (data b_ih)).
Let s3 : tensor F := mkT [H] (map2 fadd (data s2) (data b_hh)).

Lemma tanh_cell_eq : tanh_cell x h w_ih w_hh b_ih b_hh = Ok (tanh s3).
Proof.
  unfold tanh_cell.
  rewrite (einsum_ij_j_eq w_ih x (proj2 Hw_ih) (proj2 Hx)). cbn [bind].
  rewrite (einsum_ij_j_eq w_hh h (proj2 Hw_hh) (proj2 Hh)). cbn [bind].
  rewrite (add_same_shape (matvec_has_shape w_ih x H D) (matvec_has_shape w_hh h H H)).
  cbn [bind data]. fold s1.
  assert (H1 : has_shape [H] s1)
    by apply (added_has_shape (matvec_has_shape w_ih x H D) (matvec_has_shape w_hh h H H)).
  rewrite (add_same_shape H1 Hb_ih). cbn [bind]. fold s2.
  assert (H2 : has_shape [H] s2) by apply (added_has_shape H1 Hb_ih).
  rewrite (add_same_shape H2 Hb_hh). reflexivity.
Qed.

Lemma tanh_cell_result_shape : has_shape [H] (tanh s3).
Proof.
  apply tanh_has_shape.
  assert (H1 : has_shape [H] s1)
    by apply (added_has_shape (matvec_has_shape w_ih x H D) (matvec_has_shape w_hh h H H)).
  assert (H2 : has_shape [H] s2) by apply (added_has_shape H1 Hb_ih).
  apply (added_has_shape H2 Hb_hh).
Qed.

(** C6: for an input [x] of dimension [D], a hidden vector [h] of
    dimension [H] and parameters of the matching dimensions, [tanh_cell]
    returns the vector of dimension [H] whose entry [i] is
    [tanh ((W_ih . x)_i + (W_hh . h)_i + b_ih_i + b_hh_i)]: matrix-vector
    products, elementwise sums, elementwise tanh. *)
Theorem tanh_cell_formula :
  exists h', tanh_cell x h w_ih w_hh b_ih b_hh = Ok h' /\ has_shape [H] h' /\
    forall i, i < H ->
      nth i (data h') fzero =
      ftanh (fadd (fadd (fadd (matvec_at w_ih x D i) (matvec_at w_hh h H i))
                        (nth i (data b_ih) fzero))
                  (nth i (data b_hh) fzero)).
Proof.
  exists (tanh s3). split; [exact tanh_cell_eq|]. split; [exact tanh_cell_result_shape|].
  intros i Hi.
  assert (Lm : forall w y c, length (matvec w y H c) = H)
    by (intros; unfold matvec; now rewrite length_map, chunks_length).
  assert (Lb1 : length (data b_ih) = H)
    by (destruct Hb_ih as [Hwf Hs]; unfold wf in Hwf; rewrite Hs in Hwf; simpl in Hwf; lia).
  assert (Lb2 : length (data b_hh) = H)
    by (destruct Hb_hh as [Hwf Hs]; unfold wf in Hwf; rewrite Hs in Hwf; simpl in Hwf; lia).
  assert (L1 : length (data s1) = H) by (simpl; rewrite map2_length; rewrite !Lm; reflexivity).
  assert (L2 : length (data s2) = H)
    by (unfold s2; cbn [data]; rewrite map2_length; rewrite L1, ?Lb1; reflexivity).
  unfold tanh; cbn [data].
  rewrite (nth_indep _ fzero (ftanh fzero))
    by (rewrite length_map; unfold s3; cbn [data]; rewrite map2_length;
        rewrite L2, ?Lb2; [exact Hi|reflexivity]).
  rewrite map_nth. f_equal.
  unfold s3; cbn [data]. rewrite map2_nth by (rewrite L2, ?Lb2; auto). f_equal.
  unfold s2; cbn [data]. rewrite map2_nth by (rewrite L1, ?Lb1; auto). f_equal.
  unfold s1; cbn [data]. rewrite map2_nth by (rewrite !Lm; auto).
  now rewrite (matvec_nth Hw_ih Hx Hi), (matvec_nth Hw_hh Hh Hi).
Qed.

End Cell.

Lemma tanh_cell_typed (w_ih w_hh b_ih b_hh : tensor F) (D H : nat) :
  has_shape [H; D] w_ih -> has_shape [H; H] w_hh ->
  has_shape [H] b_ih -> has_shape [H] b_hh ->
  cell_typed (fun x h => tanh_cell x h w_ih w_hh b_ih b_hh) [D] [H].
Proof.
  intros Hw1 Hw2 Hb1 Hb2 x h Hx Hh. eexists. split.
  - apply (tanh_cell_eq Hx Hh Hw1 Hw2 Hb1 Hb2).
  - eapply tanh_cell_result_shape; eassumption.
Qed.

End CellFacts.

(** ** The layer stack [layers_forward] *)

Section LayerFacts.
Context {F : Type} {SF : Scalar F}.

Lemma index_eq (A : Type) (l : list A) (i : nat) (a : A) :
  nth_error l i = Some a -> index l i = Ok a.
Proof. intros H. unfold index. now rewrite H. Qed.

Lemma index_out_of_range (A : Type) (l : list A) (i : nat) :
  length l <= i -> index l i = Raise IndexError.
Proof.
  intros H. unfold index. apply nth_error_None in H. now rewrite H.
Qed.

Lemma layers_loop_chain (self : RNN) (f : cell_fn) (n L : nat) (sx sh : list nat)
    (rows : list (tensor F)) :
  1 <= L -> layers_typed self f n sx sh -> Forall (has_shape sh) rows ->
  forall (i : nat) (x : tensor F) (acc : list (tensor F)),
    i + length rows <= n ->
    has_shape (L :: (if i =? 0 then sx else sh)) x ->
    exists seqs finals,
      length seqs = length rows /\ length finals = length rows /\
      Forall (has_shape (L :: sh)) seqs /\ Forall (has_shape sh) finals /\
      (forall j h0, nth_error rows j = Some h0 ->
         exists g xin xout hL,
           f_partial self f (i + j) = Ok g /\
           nth_error (x :: seqs) j = Some xin /\
           nth_error seqs j = Some xout /\
           nth_error finals j = Some hL /\
           cum_map g xin h0 = Ok (xout, hL)) /\
      layers_loop self f (combine (seq i (length rows)) rows) x acc
        = Ok (last seqs x, acc ++ finals).
Proof.
  intros HL Hf Hrows; induction Hrows as [|h0 rows Hh0 _ IH]; intros i x acc Hi Hx.
  - exists [], []. repeat split; try constructor.
    + intros [|j] h0 Hn; discriminate.
    + simpl. now rewrite app_nil_r.
  - simpl in Hi. destruct (Hf i ltac:(lia)) as (g & Hg & Hty).
    destruct (cum_map_shapes HL Hx Hh0 Hty) as (out & hL & Hcm & Hout & HhL).
    destruct (IH (S i) out (acc ++ [hL]) ltac:(lia) Hout)
      as (seqs & finals & Hl1 & Hl2 & Hs & Hfin & Hchain & Hloop).
    exists (out :: seqs), (hL :: finals). repeat split.
    + simpl. now rewrite Hl1.
    + simpl. now rewrite Hl2.
    + now constructor.
    + now constructor.
    + intros [|j] h Hn; simpl in Hn.
      * injection Hn as <-. exists g, x, out, hL. rewrite Nat.add_0_r.
        now repeat split.
      * destruct (Hchain j h Hn) as (g' & xin & xout & hL' & H1 & H2 & H3 & H4 & H5).
        exists g', xin, xout, hL'. rewrite Nat.add_succ_r. now repeat split.
    + cbn [length seq combine layers_loop]. rewrite Hg. cbn [bind].
      rewrite Hcm. cbn [bind]. rewrite Hloop, <- app_assoc.
      now rewrite last_cons_default.
Qed.

Lemma layers_forward_shapes (self : RNN) (f : cell_fn) (x h_inits : tensor F)
    (n L : nat) (sx sh : list nat) :
  1 <= L -> 1 <= n -> layers_typed self f n sx sh ->
  has_shape (L :: sx) x -> has_shape (n :: sh) h_inits ->
  exists out hn, layers_forward self f x h_inits = Ok (out, hn) /\
                 has_shape (L :: sh) out /\ has_shape (n :: sh) hn.
Proof.
  intros HL Hn Hf Hx Hh.
  pose proof (iter_rows_shape Hh) as Hrows.
  set (rows := map (mkT sh) (chunks n (numel sh) (data h_inits))) in *.
  assert (Hlen : length rows = n) by (unfold rows; now rewrite length_map, chunks_length).
  destruct (@layers_loop_chain self f n L sx sh rows HL Hf Hrows 0 x []) as
    (seqs & finals & Hl1 & Hl2 & Hs & Hfin & _ & Hloop); [lia|exact Hx|].
  unfold layers_forward. rewrite (iter_eq _ (proj2 Hh)). fold rows.
  cbn [bind]. unfold enumerate. rewrite Hloop. cbn [bind app].
  rewrite (stack_eq (s:=sh) (ts:=finals)).
  - cbn [bind]. eexists _, _. split; [reflexivity|]. split.
    + destruct seqs as [|a seqs]; [simpl in Hl1; lia|].
      rewrite Forall_forall in Hs. apply Hs.
      rewrite (app_removelast_last x (l:=a :: seqs)) at 2 by discriminate.
      apply in_or_app. right. now left.
    + rewrite <- Hlen, <- Hl2. now apply stacked_has_shape.
  - destruct finals; [simpl in Hl2; lia|discriminate].
  - now apply has_shape_shapes.
Qed.

(** C7: [layers_forward] scans once per layer, in the order of the layer
    index: layer [l] scans the input sequence [x] when [l = 0] and the whole
    output sequence of layer [l - 1] otherwise, from the initial state
    [h_inits[l]] and with the parameters of layer [l].  It returns the output
    sequence of the last layer and the tensor whose rows are the final
    states of the layers, in layer order. *)
Theorem layers_forward_chain (self : RNN) (f : cell_fn) (x h_inits : tensor F)
    (L : nat) (sx sh : list nat) :
  1 <= L -> 1 <= num_layers self ->
  layers_typed self f (num_layers self) sx sh ->
  has_shape (L :: sx) x -> has_shape (num_layers self :: sh) h_inits ->
  exists h0s seqs finals hn,
    iter h_inits = Ok h0s /\ length h0s = num_layers self /\
    length seqs = num_layers self /\ length finals = num_layers self /\
    (forall l h0, nth_error h0s l = Some h0 ->
       exists g xin xout hL,
         f_partial self f l = Ok g /\
         nth_error (x :: seqs) l = Some xin /\
         nth_error seqs l = Some xout /\
         nth_error finals l = Some hL /\
         cum_map g xin h0 = Ok (xout, hL)) /\
    layers_forward self f x h_inits = Ok (last seqs x, hn) /\
    has_shape (num_layers self :: sh) hn /\ iter hn = Ok finals.
Proof.
  intros HL Hn Hf Hx Hh.
  pose proof (iter_rows_shape Hh) as Hrows.
  set (rows := map (mkT sh) (chunks (num_layers self) (numel sh) (data h_inits))) in *.
  assert (Hlen : length rows = num_layers self)
    by (unfold rows; now rewrite length_map, chunks_length).
  destruct (@layers_loop_chain self f (num_layers self) L sx sh rows HL Hf Hrows 0 x [])
    as (seqs & finals & Hl1 & Hl2 & Hs & Hfin & Hchain & Hloop); [lia|exact Hx|].
  exists rows, seqs, finals, (mkT (length finals :: sh) (concat (map data finals))).
  split; [apply iter_eq, Hh|].
  split; [exact Hlen|].
  split; [congruence|].
  split; [congruence|].
  split; [exact Hchain|].
  split; [|split].
  - unfold layers_forward. rewrite (iter_eq _ (proj2 Hh)). fold rows.
    cbn [bind]. unfold enumerate. rewrite Hloop. cbn [bind app].
    rewrite (stack_eq (s:=sh) (ts:=finals)); [reflexivity| |].
    + destruct finals; [simpl in Hl2; lia|discriminate].
    + now apply has_shape_shapes.
  - rewrite <- Hlen, <- Hl2. now apply stacked_has_shape.
  - now apply iter_stacked.
Qed.

Lemma layers_loop_overrun (self : RNN) (f : cell_fn) (rows : list (tensor F)) :
  forall (i : nat) (x : tensor F) (acc : list (tensor F)),
    i <= length (ws_ih self) -> length (ws_ih self) < i + length rows ->
    raises (layers_loop self f (combine (seq i (length rows)) rows) x acc).
Proof.
  induction rows as [|h0 rows IH]; intros i x acc Hlo Hhi; simpl in Hhi; [lia|].
  cbn [length seq combine layers_loop].
  destruct (Nat.eq_dec i (length (ws_ih self))) as [->|Hne].
  - exists IndexError. unfold f_partial.
    now rewrite index_out_of_range by lia.
  - destruct (f_partial self f i) as [g|e]; cbn [bind]; [|now exists e].
    destruct (cum_map g x h0) as [[x' h_L]|e]; cbn [bind]; [|now exists e].
    apply IH; lia.
Qed.

(** C4, as the code has it: [layers_forward] raises whenever the number of
    initial hidden vectors differs from [num_layers], unless it is at least
    one and smaller than [num_layers].  With more vectors than layers the
    parameter lists are indexed past their end; with none there is no final
    state to stack.  With at least one and fewer than [num_layers], the
    layers beyond [len(h_inits)] are not run and nothing is raised for it. *)
Theorem layers_forward_rejects_h_inits_count (self : RNN) (f : cell_fn)
    (x h_inits : tensor F) (n : nat) (s : list nat) :
  length (ws_ih self) = num_layers self ->
  shape h_inits = n :: s ->
  n <> num_layers self -> ~ (1 <= n < num_layers self) ->
  raises (layers_forward self f x h_inits).
Proof.
  intros Hlen Hs Hne Hnot. unfold layers_forward. rewrite (iter_eq _ Hs). cbn [bind].
  unfold enumerate.
  set (rows := map (mkT s) (chunks n (numel s) (data h_inits))).
  assert (Hrows : length rows = n) by (unfold rows; now rewrite length_map, chunks_length).
  destruct (Nat.eq_dec n 0) as [Hz|Hz].
  - destruct rows as [|r rows]; [|simpl in Hrows; lia].
    now exists RuntimeError.
  - destruct (@layers_loop_overrun self f rows 0 x []) as (e & He); [lia|lia|].
    rewrite He. now exists e.
Qed.

Lemma params_ok_nth (s : nat -> list nat) (ps : list (tensor F)) :
  forall (i l : nat) (p : tensor F),
    params_ok s i ps = true -> nth_error ps l = Some p -> has_shape (s (i + l)) p.
Proof.
  induction ps as [|q ps IH]; intros i l p Hok Hn; [destruct l; discriminate|].
  simpl in Hok. apply andb_prop in Hok as [Hq Hps].
  destruct l as [|l]; simpl in Hn.
  - injection Hn as <-. rewrite Nat.add_0_r. unfold param_ok in Hq.
    apply andb_prop in Hq as [Hs Hd]. apply shape_eqb_true in Hs.
    apply Nat.eqb_eq in Hd. split; [unfold wf; now rewrite Hs|exact Hs].
  - rewrite Nat.add_succ_r. apply (IH (S i) l p Hps Hn).
Qed.

Lemma init_inv_layers_typed (self : RNN) :
  init_inv self = true ->
  layers_typed self tanh_cell (num_layers self) [input_size self] [hidden_size self].
Proof.
  unfold init_inv. intros Hinv.
  repeat (apply andb_prop in Hinv as [Hinv ?]).
  repeat match goal with
         | H : (_ =? _) = true |- _ => apply (proj1 (Nat.eqb_eq _ _)) in H
         end.
  intros l Hl.
  destruct (nth_error (ws_ih self) l) as [w_ih|] eqn:E1;
    [|apply nth_error_None in E1; lia].
  destruct (nth_error (ws_hh self) l) as [w_hh|] eqn:E2;
    [|apply nth_error_None in E2; lia].
  destruct (nth_error (bs_ih self) l) as [b_ih|] eqn:E3;
    [|apply nth_error_None in E3; lia].
  destruct (nth_error (bs_hh self) l) as [b_hh|] eqn:E4;
    [|apply nth_error_None in E4; lia].
  exists (fun x h => tanh_cell x h w_ih w_hh b_ih b_hh). split.
  - unfold f_partial.
    now rewrite (index_eq _ _ E1), (index_eq _ _ E2), (index_eq _ _ E3), (index_eq _ _ E4).
  - replace (if l =? 0 then [input_size self] else [hidden_size self])
      with [layer_input_size self l]
      by (unfold layer_input_size; now destruct (l =? 0)).
    apply tanh_cell_typed.
    + exact (@params_ok_nth (fun l => [hidden_size self; layer_input_size self l])
               _ 0 l w_ih H2 E1).
    + exact (@params_ok_nth (fun _ => [hidden_size self; hidden_size self]) _ 0 l w_hh H1 E2).
    + exact (@params_ok_nth (fun _ => [hidden_size self]) _ 0 l b_ih H0 E3).
    + exact (@params_ok_nth (fun _ => [hidden_size self]) _ 0 l b_hh H E4).
Qed.

End LayerFacts.

(** ** The exchange of the first two axes *)

Section TransposeFacts.
Context {F : Type} {SF : Scalar F}.

Lemma nth_map_in_range (A B : Type) (g : A -> B) (l : list A) (i : nat) (da : A) (db : B) :
  i < length l -> nth i (map g l) db = g (nth i l da).
Proof.
  intros Hi. rewrite (nth_indep _ db (g da)) by (now rewrite length_map).
  apply map_nth.
Qed.

Lemma transpose_row (A : Type) (b j : nat) (rows : list (list (list A))) :
  j < b -> nth j (transpose b rows) [] = map (fun r => nth j r []) rows.
Proof.
  intros Hj. unfold transpose.
  rewrite (nth_map_in_range (fun j => map (fun r => nth j r []) rows) _ 0)
    by (now rewrite length_seq).
  now rewrite seq_nth.
Qed.

Lemma transpose_all_length (A : Type) (b : nat) (rows : list (list (list A))) :
  Forall (fun r => length r = length rows) (transpose b rows).
Proof.
  unfold transpose. apply Forall_map, Forall_forall. intros j _.
  now rewrite length_map.
Qed.

Lemma transpose_entries_length (A : Type) (b c : nat) (rows : list (list (list A))) :
  Forall (fun r => length r = b /\ Forall (fun e => length e = c) r) rows ->
  Forall (fun e => length e = c) (concat (transpose b rows)).
Proof.
  intros Hrows. apply Forall_concat. unfold transpose.
  apply Forall_map, Forall_forall. intros j Hj. apply in_seq in Hj.
  apply Forall_map. eapply Forall_impl; [|exact Hrows].
  intros r [Hlen Hall]. rewrite Forall_forall in Hall. apply Hall, nth_In. lia.
Qed.

Lemma matrix_of_chunks (a b c : nat) (d : list F) :
  length d = a * (b * c) ->
  Forall (fun r => length r = b /\ Forall (fun e => length e = c) r)
         (map (chunks b c) (chunks a (b * c) d)).
Proof.
  intros Hd. apply Forall_map.
  eapply Forall_impl; [|apply chunks_all_length; exact Hd].
  intros r Hr. split; [apply chunks_length|now apply chunks_all_length].
Qed.

Lemma einsum_ijk_jik_eq (t : tensor F) (a b c : nat) :
  shape t = [a; b; c] ->
  einsum_ijk_jik t =
  Ok (mkT [b; a; c]
          (concat (concat (transpose b (map (chunks b c) (chunks a (b * c) (data t))))))).
Proof. intros Hs. unfold einsum_ijk_jik. now rewrite Hs. Qed.

Lemma transposed_has_shape (t : tensor F) (a b c : nat) :
  has_shape [a; b; c] t ->
  has_shape [b; a; c]
    (mkT [b; a; c]
         (concat (concat (transpose b (map (chunks b c) (chunks a (b * c) (data t))))))).
Proof.
  intros [Hwf Hs]. unfold wf in Hwf. rewrite Hs in Hwf. simpl in Hwf.
  split; [|reflexivity]. unfold wf. cbn [data shape numel fold_right].
  rewrite (@length_concat_uniform _ c).
  - rewrite (@length_concat_uniform _ a).
    + unfold transpose. rewrite length_map, length_seq. lia.
    + eapply Forall_impl; [|apply transpose_all_length].
      intros r Hr. now rewrite Hr, length_map, chunks_length.
  - apply transpose_entries_length, matrix_of_chunks. lia.
Qed.

(** Entry [(j, i, k)] of the result is entry [(i, j, k)] of the operand. *)
Lemma einsum_ijk_jik_entry (t : tensor F) (a b c i j k : nat) (d : F) :
  has_shape [a; b; c] t -> i < a -> j < b -> k < c ->
  nth ((j * a + i) * c + k)
      (concat (concat (transpose b (map (chunks b c) (chunks a (b * c) (data t)))))) d
  = nth ((i * b + j) * c + k) (data t) d.
Proof.
  intros [Hwf Hs] Hi Hj Hk. unfold wf in Hwf. rewrite Hs in Hwf. simpl in Hwf.
  set (rows := map (chunks b c) (chunks a (b * c) (data t))).
  assert (Hrows : length rows = a) by (unfold rows; now rewrite length_map, chunks_length).
  rewrite nth_concat_uniform; [| |
    rewrite (@length_concat_uniform _ a);
      [unfold transpose; rewrite length_map, length_seq; nia
      |eapply Forall_impl; [|apply transpose_all_length]; intros r Hr; now rewrite Hr]
    |exact Hk].
  2: { apply transpose_entries_length, matrix_of_chunks. lia. }
  rewrite nth_concat_uniform; [| |unfold transpose; now rewrite length_map, length_seq|exact Hi].
  2: { eapply Forall_impl; [|apply transpose_all_length]. intros r Hr. now rewrite Hr. }
  rewrite transpose_row by exact Hj.
  rewrite (nth_map_in_range (fun r => nth j r []) rows [] []) by lia.
  unfold rows.
  rewrite (nth_map_in_range (chunks b c) _ [] []) by (now rewrite chunks_length).
  rewrite nth_nth_chunks by assumption.
  rewrite nth_chunks by assumption.
  rewrite nth_firstn_skipn by nia. f_equal. nia.
Qed.

End TransposeFacts.

(** ** The batch driver [__call__] *)

Section CallFacts.
Context {F : Type} {SF : Scalar F}.

Lemma reshape_eq (t : tensor F) (s : list nat) :
  numel (shape t) = numel s -> reshape t s = Ok (mkT s (data t)).
Proof. intros H. unfold reshape. now rewrite H, Nat.eqb_refl. Qed.

Lemma reshape_fails (t : tensor F) (s : list nat) :
  numel (shape t) <> numel s -> reshape t s = Raise RuntimeError.
Proof. intros H. unfold reshape. apply Nat.eqb_neq in H. now rewrite H. Qed.

Lemma chunks_from (A : Type) (n k : nat) (l : list A) :
  forall i, chunks n k (skipn (i * k) l)
            = map (fun j => firstn k (skipn (j * k) l)) (seq i n).
Proof.
  induction n as [|n IH]; intros i; simpl; [reflexivity|].
  f_equal. rewrite skipn_skipn. replace (k + i * k) with (S i * k) by lia.
  apply IH.
Qed.

Lemma iter_sub (t : tensor F) (n : nat) (s : list nat) :
  shape t = n :: s -> iter t = Ok (map (sub t) (seq 0 n)).
Proof.
  intros Hs. rewrite (iter_eq _ Hs). f_equal.
  change (data t) with (skipn (0 * numel s) (data t)).
  rewrite chunks_from, map_map. apply map_ext. intros j.
  unfold sub. now rewrite Hs.
Qed.

Lemma sub_has_shape (t : tensor F) (n i : nat) (s : list nat) :
  has_shape (n :: s) t -> i < n -> has_shape s (sub t i).
Proof.
  intros [Hwf Hs] Hi. unfold wf in Hwf. rewrite Hs in Hwf. simpl in Hwf.
  unfold sub, has_shape, wf. rewrite Hs. simpl. split; [|reflexivity].
  rewrite length_firstn, length_skipn. nia.
Qed.

Lemma combine_map_seq (A B : Type) (p : nat -> A) (q : nat -> B) (ns : list nat) :
  combine (map p ns) (map q ns) = map (fun n => (p n, q n)) ns.
Proof. induction ns as [|n ns IH]; simpl; [reflexivity|now rewrite IH]. Qed.

Section Valid.
Variables (self : @RNN F) (L : nat).
Hypothesis Hinv : init_inv self = true.
Hypothesis HL : 1 <= L.
Hypothesis Hlayers : 1 <= num_layers self.

Lemma batch_forward_shapes (x h_0 : tensor F) :
  has_shape [L; input_size self] x ->
  has_shape [num_layers self; hidden_size self] h_0 ->
  exists hs hn, batch_forward self x h_0 = Ok (hs, hn) /\
                has_shape [L; hidden_size self] hs /\
                has_shape [num_layers self; hidden_size self] hn.
Proof.
  intros Hx Hh. unfold batch_forward.
  exact (layers_forward_shapes HL Hlayers (init_inv_layers_typed self Hinv) Hx Hh).
Qed.

Lemma batch_loop_rows (p q : nat -> tensor F) (ns : list nat) :
  Forall (fun n => has_shape [L; input_size self] (p n) /\
                   has_shape [num_layers self; hidden_size self] (q n)) ns ->
  forall batch_hs batch_hn,
  exists rs,
    Forall2 (fun n r => batch_forward self (p n) (q n) = Ok r) ns rs /\
    Forall (row_result self L) rs /\
    batch_loop self (map (fun n => (p n, q n)) ns) batch_hs batch_hn
      = Ok (batch_hs ++ map fst rs, batch_hn ++ map snd rs).
Proof.
  induction 1 as [|n ns [Hp Hq] _ IH]; intros batch_hs batch_hn.
  - exists []. repeat split; try constructor. simpl. now rewrite !app_nil_r.
  - destruct (batch_forward_shapes Hp Hq) as (hs & hn & Hbf & Hhs & Hhn).
    destruct (IH (batch_hs ++ [hs]) (batch_hn ++ [hn])) as (rs & Hall & Hres & Hloop).
    exists ((hs, hn) :: rs). repeat split.
    + now constructor.
    + constructor; [now split|exact Hres].
    + cbn [map batch_loop]. rewrite Hbf. cbn [bind]. rewrite Hloop.
      cbn [map fst snd]. now rewrite <- !app_assoc.
Qed.

Lemma call_rows (g : globals) (x h_0 : tensor F) (B : nat) :
  N g = Some B -> 1 <= B ->
  has_shape [B; L; input_size self] x ->
  wf h_0 ->
  numel (shape h_0) = numel [B; num_layers self; hidden_size self] ->
  exists rs,
    Forall2 (fun n r =>
               batch_forward self (sub x n)
                 (sub (mkT [B; num_layers self; hidden_size self] (data h_0)) n) = Ok r)
            (seq 0 B) rs /\
    Forall (row_result self L) rs /\
    __call__ self g x (Some h_0)
    = Ok (mkT [B; L; hidden_size self] (concat (map data (map fst rs))),
          mkT [num_layers self; B; hidden_size self]
              (concat (concat (transpose (num_layers self)
                 (map (chunks (num_layers self) (hidden_size self))
                      (map data (map snd rs))))))).
Proof.
  intros HN HB Hx Hwf Hnum.
  set (h' := mkT [B; num_layers self; hidden_size self] (data h_0)).
  assert (Hh' : has_shape [B; num_layers self; hidden_size self] h').
  { split; [|reflexivity]. unfold wf, h'. cbn [data shape]. unfold wf in Hwf. congruence. }
  assert (Hns : Forall (fun n => has_shape [L; input_size self] (sub x n) /\
                                 has_shape [num_layers self; hidden_size self] (sub h' n))
                       (seq 0 B)).
  { apply Forall_forall. intros n Hn. apply in_seq in Hn.
    split; eapply sub_has_shape; try eassumption; lia. }
  destruct (batch_loop_rows (sub x) (sub h') Hns [] []) as (rs & Hall & Hres & Hloop).
  exists rs. split; [exact Hall|]. split; [exact Hres|].
  assert (Hlen : length rs = B).
  { apply Forall2_length in Hall. now rewrite length_seq in Hall. }
  unfold __call__, global_N. rewrite HN. cbn [bind].
  rewrite (reshape_eq _ _ Hnum). cbn [bind]. fold h'.
  rewrite (iter_sub _ (proj2 Hx)). cbn [bind].
  rewrite (iter_sub h' (n:=B) eq_refl). cbn [bind].
  rewrite combine_map_seq, Hloop. cbn [bind app].
  assert (Hfst : Forall (has_shape [L; hidden_size self]) (map fst rs)).
  { apply Forall_map. eapply Forall_impl; [|exact Hres]. now intros r [H1 _]. }
  assert (Hsnd : Forall (has_shape [num_layers self; hidden_size self]) (map snd rs)).
  { apply Forall_map. eapply Forall_impl; [|exact Hres]. now intros r [_ H2]. }
  rewrite (stack_eq (s:=[L; hidden_size self]) (ts:=map fst rs));
    [|destruct rs; [simpl in Hlen; lia|discriminate]|now apply has_shape_shapes].
  cbn [bind].
  rewrite (stack_eq (s:=[num_layers self; hidden_size self]) (ts:=map snd rs));
    [|destruct rs; [simpl in Hlen; lia|discriminate]|now apply has_shape_shapes].
  cbn [bind]. rewrite !length_map, Hlen.
  rewrite (einsum_ijk_jik_eq (mkT [B; num_layers self; hidden_size self] _) eq_refl).
  cbn [bind data].
  rewrite <- Hlen at 3. rewrite <- (length_map snd rs), <- (length_map data (map snd rs)).
  rewrite chunks_concat; [reflexivity|].
  apply Forall_map. eapply Forall_impl; [|exact Hsnd].
  intros t [Ht Hs]. unfold wf in Ht. rewrite Hs in Ht. simpl in Ht. lia.
Qed.

End Valid.

Lemma has_shape_eta (s : list nat) (t : tensor F) : has_shape s t -> mkT s (data t) = t.
Proof. intros [_ Hs]. destruct t as [st dt]. simpl in *. now subst. Qed.

(** C8: for a batch [x] of [B >= 1] sequences of length [L >= 1] and a
    matching [h_0], where [B] is the batch size the global [N] holds,
    [__call__] returns the tensor of shape [(B, L, H_out)] whose rows are the
    output sequences of the rows of the batch, and the tensor of shape
    [(num_layers, B, H_out)] that is the stack [hn] of the per-row final
    states with its first two axes exchanged. *)
Theorem call_shape_contract (self : RNN) (g : globals) (x h_0 : tensor F) (B L : nat) :
  init_inv self = true -> N g = Some B -> 1 <= B -> 1 <= L -> 1 <= num_layers self ->
  has_shape [B; L; input_size self] x ->
  has_shape [B; num_layers self; hidden_size self] h_0 ->
  exists rs out hn h_L,
    Forall2 (fun n r => batch_forward self (sub x n) (sub h_0 n) = Ok r) (seq 0 B) rs /\
    __call__ self g x (Some h_0) = Ok (out, h_L) /\
    has_shape [B; L; hidden_size self] out /\ iter out = Ok (map fst rs) /\
    has_shape [B; num_layers self; hidden_size self] hn /\ iter hn = Ok (map snd rs) /\
    has_shape [num_layers self; B; hidden_size self] h_L /\
    forall n l k, n < B -> l < num_layers self -> k < hidden_size self ->
      nth ((l * B + n) * hidden_size self + k) (data h_L) fzero
      = nth ((n * num_layers self + l) * hidden_size self + k) (data hn) fzero.
Proof.
  intros Hinv HN HB HL Hlayers Hx Hh.
  destruct (call_rows self Hinv HL Hlayers g HN HB Hx (proj1 Hh)) as (rs & Hall & Hres & Hcall).
  { now rewrite (proj2 Hh). }
  rewrite (has_shape_eta Hh) in Hall.
  assert (Hlen : length rs = B).
  { apply Forall2_length in Hall. now rewrite length_seq in Hall. }
  assert (Hfst : Forall (has_shape [L; hidden_size self]) (map fst rs)).
  { apply Forall_map. eapply Forall_impl; [|exact Hres]. now intros r [H1 _]. }
  assert (Hsnd : Forall (has_shape [num_layers self; hidden_size self]) (map snd rs)).
  { apply Forall_map. eapply Forall_impl; [|exact Hres]. now intros r [_ H2]. }
  set (hn := mkT [B; num_layers self; hidden_size self] (concat (map data (map snd rs)))).
  assert (Hhn : has_shape [B; num_layers self; hidden_size self] hn).
  { apply stacked_has_shape_n; [now rewrite length_map|exact Hsnd]. }
  assert (Hchunks : chunks B (num_layers self * hidden_size self) (data hn)
                    = map data (map snd rs)).
  { unfold hn. cbn [data]. rewrite <- Hlen at 1.
    rewrite <- (length_map snd rs), <- (length_map data (map snd rs)).
    apply chunks_concat. apply Forall_map. eapply Forall_impl; [|exact Hsnd].
    intros t [Ht Hs]. unfold wf in Ht. rewrite Hs in Ht. simpl in Ht. lia. }
  rewrite <- Hchunks in Hcall.
  eexists rs, _, hn, _. split; [exact Hall|]. split; [exact Hcall|].
  split; [|split; [|split; [exact Hhn|split; [|split]]]].
  - apply stacked_has_shape_n; [now rewrite length_map|exact Hfst].
  - apply iter_stacked_n; [now rewrite length_map|exact Hfst].
  - apply iter_stacked_n; [now rewrite length_map|exact Hsnd].
  - now apply transposed_has_shape.
  - intros n l k Hn Hl Hk. cbn [data]. now apply einsum_ijk_jik_entry.
Qed.

(** C10: a supplied [h_0] that holds [N * num_layers * hidden_size] elements,
    [N] being the global, is accepted whatever its shape: the reshape keeps
    its elements in their row-major order, so that row [n] of the batch
    starts from the [n]-th block of [num_layers * hidden_size] consecutive
    elements of [h_0].  An [h_0] laid out as [(num_layers, N, H_out)] is such
    a tensor: it is neither rejected nor transposed. *)
Theorem call_reshapes_h_0 (self : RNN) (g : globals) (x h_0 : tensor F) (B L : nat) :
  init_inv self = true -> N g = Some B -> 1 <= B -> 1 <= L -> 1 <= num_layers self ->
  has_shape [B; L; input_size self] x ->
  wf h_0 -> numel (shape h_0) = B * num_layers self * hidden_size self ->
  reshape h_0 [B; num_layers self; hidden_size self]
    = Ok (mkT [B; num_layers self; hidden_size self] (data h_0)) /\
  exists rs out h_L,
    Forall2 (fun n r =>
               batch_forward self (sub x n)
                 (mkT [num_layers self; hidden_size self]
                      (firstn (num_layers self * hidden_size self)
                              (skipn (n * (num_layers self * hidden_size self)) (data h_0))))
               = Ok r)
            (seq 0 B) rs /\
    __call__ self g x (Some h_0) = Ok (out, h_L) /\
    __call__ self g x (Some (mkT [B; num_layers self; hidden_size self] (data h_0)))
      = Ok (out, h_L) /\
    iter out = Ok (map fst rs).
Proof.
  intros Hinv HN HB HL Hlayers Hx Hwf Hnum.
  assert (Hnum' : numel (shape h_0) = numel [B; num_layers self; hidden_size self])
    by (simpl; lia).
  split; [now apply reshape_eq|].
  destruct (call_rows self Hinv HL Hlayers g HN HB Hx Hwf Hnum') as (rs & Hall & Hres & Hcall).
  assert (Hwf' : wf (mkT [B; num_layers self; hidden_size self] (data h_0)))
    by (unfold wf in *; cbn [data shape]; congruence).
  destruct (call_rows self Hinv HL Hlayers g HN HB Hx Hwf' eq_refl)
    as (rs' & Hall' & _ & Hcall').
  cbn [data] in Hall', Hcall'.
  assert (Hrs : rs' = rs).
  { clear - Hall Hall'. revert rs' Hall'.
    induction Hall as [|n r ns rs Hr _ IH]; intros rs' Hall'; inversion Hall'; subst;
      [reflexivity|].
    f_equal; [congruence|now apply IH]. }
  subst rs'.
  assert (Hlen : length rs = B).
  { apply Forall2_length in Hall. now rewrite length_seq in Hall. }
  eexists rs, _, _. split; [|split; [exact Hcall|split; [exact Hcall'|]]].
  - eapply Forall2_impl; [|exact Hall]. intros n r Hr. cbn beta in Hr.
    unfold sub in Hr. cbn [shape data tl numel fold_right] in Hr.
    now rewrite Nat.mul_1_r in Hr.
  - apply iter_stacked_n; [now rewrite length_map|].
    apply Forall_map. eapply Forall_impl; [|exact Hres]. now intros r [H1 _].
Qed.

(** C3, as the code has it: the only check on a supplied [h_0] is the
    reshape at the start of the call, which raises exactly when [h_0] does
    not hold [N * num_layers * hidden_size] elements, [N] being the global. *)
Theorem call_rejects_wrong_numel (self : RNN) (g : globals) (x h_0 : tensor F) (n : nat) :
  N g = Some n ->
  numel (shape h_0) <> n * num_layers self * hidden_size self ->
  __call__ self g x (Some h_0) = Raise RuntimeError.
Proof.
  intros HN Hnum. unfold __call__, global_N. rewrite HN. cbn [bind].
  rewrite reshape_fails; [reflexivity|]. simpl. lia.
Qed.

End CallFacts.

(** ** Sequences of length zero *)

Section EmptySequenceFacts.
Context {F : Type} {SF : Scalar F}.

Lemma layers_forward_empty_seq (self : RNN) (f : cell_fn) (x h_inits : tensor F)
    (s : list nat) :
  shape x = 0 :: s -> raises (layers_forward self f x h_inits).
Proof.
  intros Hs. unfold layers_forward.
  destruct (iter h_inits) as [rows|e]; cbn [bind]; [|now exists e].
  unfold enumerate. destruct rows as [|h0 rows].
  - exists RuntimeError. reflexivity.
  - cbn [length seq combine layers_loop].
    destruct (f_partial self f 0) as [g|e]; cbn [bind]; [|now exists e].
    rewrite (cum_map_empty g x h0 Hs). now exists RuntimeError.
Qed.

Lemma call_empty_seq (self : RNN) (g : globals) (x : tensor F) (h_0 : option (tensor F))
    (B D : nat) :
  shape x = [B; 0; D] -> raises (__call__ self g x h_0).
Proof.
  intros Hs. unfold __call__, global_N.
  destruct (N g) as [n|]; [|destruct h_0; now exists NameError].
  assert (Hh : exists t,
            match h_0 with
            | Some h => Ok h
            | None => n0 <- Ok n ;; Ok (zeros [num_layers self; n0; hidden_size self])
            end = Ok t) by (destruct h_0; cbn [bind]; eauto).
  destruct Hh as (t & ->). cbn [bind].
  destruct (reshape t [n; num_layers self; hidden_size self]) as [h'|e] eqn:Er;
    cbn [bind]; [|now exists e].
  unfold reshape in Er. destruct (_ =? _); [|discriminate]. injection Er as <-.
  rewrite (iter_eq x Hs). cbn [bind]. unfold iter at 1. cbn [shape data bind].
  destruct B as [|B]; [now exists RuntimeError|].
  destruct n as [|n]; [now exists RuntimeError|].
  cbn [chunks map combine batch_loop].
  destruct (@layers_forward_empty_seq self tanh_cell
              (mkT [0; D] (firstn (numel [0; D]) (data x)))
              (mkT [num_layers self; hidden_size self]
                   (firstn (numel [num_layers self; hidden_size self]) (data t)))
              [D] eq_refl) as (e & He).
  unfold batch_forward. rewrite He. now exists e.
Qed.

(** C2, as the code has it: on a sequence of length zero [cum_map] raises,
    because the empty list of step results cannot be stacked, whatever the
    cell and the initial state; and [__call__] on an input of shape
    [(B, 0, D)] raises as well, with or without [h_0]. *)
Theorem empty_sequence_raises (self : RNN) (g : globals) (f : cell) (xs h x : tensor F)
    (h_0 : option (tensor F)) (s : list nat) (B D : nat) :
  shape xs = 0 :: s -> shape x = [B; 0; D] ->
  cum_map f xs h = Raise RuntimeError /\ raises (__call__ self g x h_0).
Proof.
  intros Hxs Hx. split.
  - now apply cum_map_empty with (s := s).
  - now apply call_empty_seq with (B := B) (D := D).
Qed.

End EmptySequenceFacts.

(** ** Batch independence *)

Section BatchFacts.
Context {F : Type} {SF : Scalar F}.

Lemma sub_singleton (u : tensor F) : wf u -> sub (mkT (1 :: shape u) (data u)) 0 = u.
Proof.
  intros Hwf. unfold sub. cbn [shape data tl Nat.mul skipn].
  unfold wf in Hwf. rewrite <- Hwf, firstn_all. now destruct u.
Qed.

Lemma slice_eq (t : tensor F) (B n : nat) (s : list nat) :
  has_shape (B :: s) t -> n < B -> slice t n = mkT (1 :: s) (data (sub t n)).
Proof.
  intros Ht Hn. unfold slice. now rewrite (proj2 (sub_has_shape Ht Hn)).
Qed.

Lemma map_nth_seq (A : Type) (l : list A) (d : A) :
  map (fun j => nth j l d) (seq 0 (length l)) = l.
Proof.
  induction l as [|a l IH]; [reflexivity|].
  cbn [length seq map nth]. f_equal.
  rewrite <- seq_shift, map_map. exact IH.
Qed.

Lemma transpose_single (A : Type) (b : nat) (m : list (list A)) :
  length m = b -> concat (transpose b [m]) = m.
Proof.
  intros <-. unfold transpose. cbn [map].
  rewrite <- (map_nth_seq m []) at 2.
  induction (seq 0 (length m)) as [|j js IH]; [reflexivity|].
  cbn [map concat app]. now rewrite IH.
Qed.

Lemma Forall2_seq_nth (A : Type) (P : nat -> A -> Prop) (rs : list A) :
  forall i b n r, Forall2 P (seq i b) rs -> nth_error rs n = Some r -> P (i + n) r.
Proof.
  induction rs as [|r0 rs IH]; intros i b n r Hall Hn; [destruct n; discriminate|].
  destruct b as [|b]; [inversion Hall|]. cbn [seq] in Hall.
  inversion Hall as [|? ? ? ? Hr Hrest]; subst.
  destruct n as [|n]; simpl in Hn.
  - injection Hn as <-. now rewrite Nat.add_0_r.
  - rewrite Nat.add_succ_r. apply (IH (S i) b n r Hrest Hn).
Qed.

Lemma list_sum_const_one (A : Type) (g : A -> nat) (l : list A) :
  Forall (fun a => g a = 1) l -> list_sum (map g l) = length l.
Proof. induction 1 as [|a l Ha _ IH]; simpl; [reflexivity|now rewrite Ha, IH]. Qed.

Lemma cat0_singles (s : list nat) (ts : list (tensor F)) :
  ts <> [] -> Forall (fun u => shape u = 1 :: s) ts ->
  cat0 ts = Ok (mkT (length ts :: s) (concat (map data ts))).
Proof.
  intros Hne Hall. destruct ts as [|t ts']; [congruence|].
  unfold cat0. set (ts := t :: ts') in *.
  assert (Ht : shape t = 1 :: s) by (inversion Hall; assumption).
  rewrite Ht. cbn [tl].
  replace (forallb _ ts) with true.
  - rewrite (list_sum_const_one (fun u => hd 0 (shape u)) (l:=ts)); [reflexivity|].
    eapply Forall_impl; [|exact Hall]. intros u Hu. now rewrite Hu.
  - symmetry. apply forallb_forall. intros u Hu. rewrite Forall_forall in Hall.
    rewrite (Hall u Hu). cbn [tl length]. now rewrite shape_eqb_refl.
Qed.

Lemma cat1_singles (a c : nat) (ts : list (tensor F)) :
  ts <> [] -> Forall (fun u => shape u = [a; 1; c]) ts ->
  cat1 ts = Ok (mkT [a; length ts; c]
                    (concat (map (fun i => concat (map (fun u => data (sub u i)) ts))
                                 (seq 0 a)))).
Proof.
  intros Hne Hall. destruct ts as [|t ts']; [congruence|].
  unfold cat1. set (ts := t :: ts') in *.
  assert (Ht : shape t = [a; 1; c]) by (inversion Hall; assumption).
  rewrite Ht. cbn [tl hd].
  replace (forallb _ ts) with true.
  - rewrite (list_sum_const_one (fun u => hd 0 (tl (shape u))) (l:=ts)); [reflexivity|].
    eapply Forall_impl; [|exact Hall]. intros u Hu. now rewrite Hu.
  - symmetry. apply forallb_forall. intros u Hu. rewrite Forall_forall in Hall.
    rewrite (Hall u Hu). cbn [tl hd length]. now rewrite Nat.eqb_refl, shape_eqb_refl.
Qed.

Section Valid.
Variables (self : @RNN F) (L : nat).
Hypothesis Hinv : init_inv self = true.
Hypothesis HL : 1 <= L.
Hypothesis Hlayers : 1 <= num_layers self.

Lemma call_single (g : globals) (xb hb : tensor F) (r : tensor F * tensor F) :
  N g = Some 1 ->
  has_shape [L; input_size self] xb ->
  has_shape [num_layers self; hidden_size self] hb ->
  batch_forward self xb hb = Ok r ->
  __call__ self g (mkT [1; L; input_size self] (data xb))
           (Some (mkT [1; num_layers self; hidden_size self] (data hb)))
  = Ok (single_result self L r).
Proof.
  intros HN Hxb Hhb Hr.
  assert (Hx1 : has_shape [1; L; input_size self] (mkT [1; L; input_size self] (data xb))).
  { split; [|reflexivity]. destruct Hxb as [Hwf Hs]. unfold wf in *.
    cbn [data shape]. rewrite Hwf, Hs. simpl. lia. }
  assert (Hh1 : has_shape [1; num_layers self; hidden_size self]
                  (mkT [1; num_layers self; hidden_size self] (data hb))).
  { split; [|reflexivity]. destruct Hhb as [Hwf Hs]. unfold wf in *.
    cbn [data shape]. rewrite Hwf, Hs. simpl. lia. }
  destruct (call_rows self Hinv HL Hlayers g HN (le_n 1) Hx1 (proj1 Hh1) eq_refl)
    as (rs & Hall & Hres & Hcall).
  cbn [data seq] in Hall.
  inversion Hall as [|? r' ? rs' Hr' Hrest]; subst. inversion Hrest; subst.
  rewrite <- (proj2 Hxb) in Hr' at 1. rewrite (sub_singleton (proj1 Hxb)) in Hr'.
  rewrite <- (proj2 Hhb) in Hr' at 1. rewrite (sub_singleton (proj1 Hhb)) in Hr'.
  assert (r' = r) by congruence. subst r'.
  rewrite Hcall. unfold single_result. cbn [map concat]. rewrite !app_nil_r.
  rewrite transpose_single by apply chunks_length.
  rewrite concat_chunks; [reflexivity|].
  inversion Hres as [|? ? [_ [Hwf Hs]] _]; subst.
  unfold wf in Hwf. rewrite Hs in Hwf. simpl in Hwf. lia.
Qed.

End Valid.

(** X16: when the global [N] is bound anew to the batch size of each call
    ([B] for the whole batch, 1 for a single row), the call on a batch [x] of
    [B] rows with the matching [h_0] and the [B] calls on the batches of size
    1 that hold one row each succeed, and joining the results of the [B]
    calls along the batch axis (axis 0 of the hidden sequence, axis 1 of the
    final hidden stack) gives the results of the call on the whole batch. *)
Theorem batch_independence (self : RNN) (x h_0 : tensor F) (B L : nat) :
  init_inv self = true -> 1 <= B -> 1 <= L -> 1 <= num_layers self ->
  has_shape [B; L; input_size self] x ->
  has_shape [B; num_layers self; hidden_size self] h_0 ->
  exists out h_L singles,
    __call__ self {| N := Some B |} x (Some h_0) = Ok (out, h_L) /\
    length singles = B /\
    (forall n r, nth_error singles n = Some r ->
       __call__ self {| N := Some 1 |} (slice x n) (Some (slice h_0 n)) = Ok r) /\
    cat0 (map fst singles) = Ok out /\
    cat1 (map snd singles) = Ok h_L.
Proof.
  intros Hinv HB HL Hlayers Hx Hh.
  destruct (call_rows self Hinv HL Hlayers {| N := Some B |} eq_refl HB Hx (proj1 Hh))
    as (rs & Hall & Hres & Hcall).
  { now rewrite (proj2 Hh). }
  rewrite (has_shape_eta Hh) in Hall.
  assert (Hlen : length rs = B).
  { apply Forall2_length in Hall. now rewrite length_seq in Hall. }
  eexists _, _, (map (single_result self L) rs).
  split; [exact Hcall|]. split; [now rewrite length_map|]. split; [|split].
  - intros n r1 Hn. rewrite nth_error_map in Hn.
    destruct (nth_error rs n) as [r|] eqn:En; [|discriminate].
    cbn [option_map] in Hn. injection Hn as <-.
    assert (Hlt : n < B) by (rewrite <- Hlen; apply nth_error_Some; congruence).
    pose proof (@Forall2_seq_nth _ _ rs 0 B n r Hall En) as Hr. cbn [Nat.add] in Hr.
    rewrite (slice_eq Hx Hlt), (slice_eq Hh Hlt).
    apply (call_single self Hinv HL Hlayers {| N := Some 1 |} eq_refl
             (sub_has_shape Hx Hlt) (sub_has_shape Hh Hlt) Hr).
  - rewrite (cat0_singles (s:=[L; hidden_size self])).
    + now rewrite !length_map, Hlen, !map_map.
    + destruct rs; [simpl in Hlen; lia|discriminate].
    + rewrite map_map. apply Forall_map, Forall_forall. now intros r _.
  - rewrite (cat1_singles (a:=num_layers self) (c:=hidden_size self)).
    + rewrite !length_map, Hlen. f_equal. f_equal.
      rewrite concat_concat. f_equal. unfold transpose.
      rewrite (map_map _ (@concat F)).
      apply map_ext_in. intros i Hi. apply in_seq in Hi. f_equal.
      rewrite !map_map. apply map_ext. intros r.
      cbn [single_result snd]. unfold sub. cbn [shape data tl numel fold_right].
      rewrite nth_chunks by lia.
      now replace (1 * (hidden_size self * 1)) with (hidden_size self) by lia.
    + destruct rs; [simpl in Hlen; lia|discriminate].
    + rewrite map_map. apply Forall_map, Forall_forall. now intros r _.
Qed.

(** C9: the call takes the batch size of [h_0] from the global [N], not from
    its arguments, so that under one binding of [N] a batch of [B >= 2] rows
    and its single rows cannot both be run.  With [N = B] the call on the
    whole batch returns; and under whatever binding the call on the whole
    batch returns, the call on each single row with its own row of [h_0]
    raises a [RuntimeError] (the reshape of the one-row [h_0] to [N] rows),
    where batch independence asks for the row's results. *)
Theorem single_row_calls_raise (self : RNN) (g : globals) (x h_0 : tensor F) (B L : nat) :
  init_inv self = true -> 2 <= B -> 1 <= L ->
  1 <= num_layers self -> 1 <= hidden_size self ->
  has_shape [B; L; input_size self] x ->
  has_shape [B; num_layers self; hidden_size self] h_0 ->
  (exists out h_L, __call__ self {| N := Some B |} x (Some h_0) = Ok (out, h_L)) /\
  (forall r, __call__ self g x (Some h_0) = Ok r ->
     forall n, n < B ->
       __call__ self g (slice x n) (Some (slice h_0 n)) = Raise RuntimeError).
Proof.
  intros Hinv HB HL Hlayers Hhid Hx Hh. split.
  - assert (HB1 : 1 <= B) by lia.
    destruct (call_rows self Hinv HL Hlayers {| N := Some B |} eq_refl HB1 Hx (proj1 Hh))
      as (rs & _ & _ & Hcall).
    { now rewrite (proj2 Hh). }
    eexists _, _. exact Hcall.
  - intros r Hr n Hn. unfold __call__, global_N in *.
    destruct (N g) as [m|]; cbn [bind] in *; [|discriminate].
    destruct (Nat.eq_dec (numel (shape h_0))
                         (numel [m; num_layers self; hidden_size self])) as [He|He].
    + rewrite reshape_fails; [reflexivity|].
      rewrite (slice_eq Hh Hn). rewrite (proj2 Hh) in He.
      cbn [shape numel fold_right] in *. nia.
    + rewrite (@reshape_fails _ h_0 _ He) in Hr. discriminate.
Qed.

End BatchFacts.

(** ** The omitted [h_0] *)

Section DefaultFacts.
Context {F : Type} {SF : Scalar F}.

(** When the global [N] holds the batch size, an omitted [h_0] is the
    all-zero tensor of shape [(N, num_layers, H_out)]. *)
Lemma call_default_zeros (self : RNN) (g : globals) (x : tensor F) (n : nat) :
  N g = Some n ->
  __call__ self g x None
  = __call__ self g x (Some (zeros [n; num_layers self; hidden_size self])).
Proof.
  intros HN. unfold __call__, global_N. rewrite HN. cbn [bind].
  unfold reshape, zeros. cbn [shape data].
  replace (numel [num_layers self; n; hidden_size self])
    with (numel [n; num_layers self; hidden_size self]) by (simpl; lia).
  reflexivity.
Qed.

End DefaultFacts.

(** ** The claims on concrete inputs *)

Section Concrete.
Import Fixtures.

Lemma rnn2_init : init_inv rnn2 = true.
Proof. reflexivity. Qed.

Lemma cell1_typed : cell_typed cell1 [2] [2].
Proof. apply tanh_cell_typed; split; reflexivity. Qed.

(** The scenario of one sequence [[1,0], [0,1], [1,1]] through [rnn1]: the
    hidden sequence is [tanh [1,0]; tanh [0,1]; tanh [1,1]] and the final
    state is [tanh [1,1]]. *)
Example identity_layer_scenario :
  __call__ rnn1 {| N := Some 1 |} (mkT [1; 3; 2] [1; 0; 0; 1; 1; 1]%R)
           (Some (mkT [1; 1; 2] [0; 0]%R))
  = Ok (mkT [1; 3; 2]
            [Rtrigo_def.tanh 1; Rtrigo_def.tanh 0; Rtrigo_def.tanh 0;
             Rtrigo_def.tanh 1; Rtrigo_def.tanh 1; Rtrigo_def.tanh 1],
        mkT [1; 1; 2] [Rtrigo_def.tanh 1; Rtrigo_def.tanh 1]).
Proof.
  cbv -[Rplus Rmult Rtrigo_def.tanh IZR].
  repeat (f_equal; try ring).
Qed.

(** With the global [N] left at 2, the call on one row of a batch of two
    raises: the reshape of the one-row [h_0] needs [N = 1]. *)
Example single_row_needs_its_own_N :
  __call__ rnn1 {| N := Some 2 |} (slice x_two 0) (Some (slice h_two 0))
  = Raise RuntimeError.
Proof. reflexivity. Qed.

(** C1: the batch size of the default [h_0] is the global [N], not the
    batch size of the input.  With [N = 2] a batch of three sequences gives
    the results of its first two rows only; with [N] unbound the call raises
    a [NameError]. *)
Theorem call_default_reads_global_N :
  shape x_three = [3; 3; 2] /\
  (exists out h_L,
     __call__ rnn1 {| N := Some 2 |} x_three None = Ok (out, h_L) /\
     shape out = [2; 3; 2] /\ shape h_L = [1; 2; 2]) /\
  __call__ rnn1 {| N := None |} x_three None = Raise NameError.
Proof.
  split; [reflexivity|]. split; [|reflexivity].
  eexists _, _. split; [reflexivity|]. split; reflexivity.
Qed.

(** The scan of an empty sequence raises, and so does the call. *)
Lemma empty_sequence_counterexample :
  shape x_none = [0; 2] /\
  cum_map cell1 x_none h_vec = Raise RuntimeError /\
  shape x_empty = [1; 0; 2] /\
  __call__ rnn1 {| N := Some 1 |} x_empty (Some (mkT [1; 1; 2] [0; 0]%R))
    = Raise RuntimeError.
Proof. repeat split. Qed.

(** An [h_0] whose axes disagree with the input and the model is accepted,
    and a batch longer than [h_0] is cut to the rows of [h_0]. *)
Lemma shape_mismatch_counterexample :
  (hd 0 (shape x_two) <> hd 0 (shape h_two_transposed) /\
   nth 1 (shape h_two_transposed) 0 <> num_layers rnn1 /\
   exists r, __call__ rnn1 {| N := Some 2 |} x_two (Some h_two_transposed) = Ok r) /\
  (nth 2 (shape (mkT [2; 2; 1] [1; 2; 3; 4]%R)) 0 <> hidden_size rnn1 /\
   exists r, __call__ rnn1 {| N := Some 2 |} x_two (Some (mkT [2; 2; 1] [1; 2; 3; 4]%R))
             = Ok r) /\
  (hd 0 (shape x_three) <> hd 0 (shape h_two) /\
   exists out h_L, __call__ rnn1 {| N := Some 2 |} x_three (Some h_two) = Ok (out, h_L) /\
                   shape out = [2; 3; 2]).
Proof.
  split; [|split].
  - split; [discriminate|]. split; [discriminate|]. eexists. reflexivity.
  - split; [discriminate|]. eexists. reflexivity.
  - split; [discriminate|]. eexists _, _. split; reflexivity.
Qed.

(** With one initial hidden vector for a model of two layers, the first
    layer alone is run and nothing is raised. *)
Lemma fewer_h_inits_counterexample :
  hd 0 (shape h_layers1) <> num_layers rnn2 /\
  exists out hn, layers_forward rnn2 tanh_cell x_seq h_layers1 = Ok (out, hn) /\
                 shape hn = [1; 1].
Proof.
  split; [discriminate|]. eexists _, _. split; reflexivity.
Qed.

Lemma cum_map_left_fold_witness :
  exists rows hs out,
    iter x_seq = Ok rows /\ length rows = 3 /\ length hs = 3 /\
    (forall t x, nth_error rows t = Some x ->
       exists hp hn, nth_error (h_vec :: hs) t = Some hp /\ nth_error hs t = Some hn /\
                     cell1 x hp = Ok hn) /\
    cum_map cell1 x_seq h_vec = Ok (out, last hs h_vec) /\
    has_shape [3; 2] out /\ iter out = Ok hs.
Proof.
  apply (@cum_map_left_fold R cell1 x_seq h_vec 3 [2] [2]).
  - lia.
  - split; reflexivity.
  - split; reflexivity.
  - exact cell1_typed.
Defined.

Lemma tanh_cell_formula_witness :
  exists h', tanh_cell (mkT [2] [1; 0]%R) h_vec
               (mkT [2; 2] [1; 0; 0; 1]%R) (mkT [2; 2] [0; 0; 0; 0]%R)
               (mkT [2] [0; 0]%R) (mkT [2] [0; 0]%R) = Ok h' /\
    has_shape [2] h' /\
    forall i, i < 2 ->
      nth i (data h') fzero =
      ftanh (fadd (fadd (fadd (matvec_at (mkT [2; 2] [1; 0; 0; 1]%R) (mkT [2] [1; 0]%R) 2 i)
                              (matvec_at (mkT [2; 2] [0; 0; 0; 0]%R) h_vec 2 i))
                        (nth i (data (mkT [2] [0; 0]%R)) fzero))
                  (nth i (data (mkT [2] [0; 0]%R)) fzero)).
Proof.
  apply (@tanh_cell_formula R R_scalar (mkT [2] [1; 0]%R) h_vec
           (mkT [2; 2] [1; 0; 0; 1]%R) (mkT [2; 2] [0; 0; 0; 0]%R)
           (mkT [2] [0; 0]%R) (mkT [2] [0; 0]%R) 2 2); split; reflexivity.
Defined.

Lemma layers_forward_chain_witness :
  exists h0s seqs finals hn,
    iter h_layers2 = Ok h0s /\ length h0s = num_layers rnn2 /\
    length seqs = num_layers rnn2 /\ length finals = num_layers rnn2 /\
    (forall l h0, nth_error h0s l = Some h0 ->
       exists g xin xout hL,
         f_partial rnn2 tanh_cell l = Ok g /\
         nth_error (x_seq :: seqs) l = Some xin /\
         nth_error seqs l = Some xout /\
         nth_error finals l = Some hL /\
         cum_map g xin h0 = Ok (xout, hL)) /\
    layers_forward rnn2 tanh_cell x_seq h_layers2 = Ok (last seqs x_seq, hn) /\
    has_shape (num_layers rnn2 :: [1]) hn /\ iter hn = Ok finals.
Proof.
  apply (@layers_forward_chain R rnn2 tanh_cell x_seq h_layers2 3 [2] [1]).
  - lia.
  - simpl; lia.
  - exact (init_inv_layers_typed rnn2 rnn2_init).
  - split; reflexivity.
  - split; reflexivity.
Defined.

Lemma layers_forward_rejects_h_inits_count_witness :
  raises (layers_forward rnn2 tanh_cell x_seq h_layers3) /\
  raises (layers_forward rnn2 tanh_cell x_seq (mkT [0; 1] [])).
Proof.
  split.
  - apply (@layers_forward_rejects_h_inits_count R rnn2 tanh_cell x_seq h_layers3 3 [1]).
    + reflexivity.
    + reflexivity.
    + simpl; lia.
    + simpl; lia.
  - apply (@layers_forward_rejects_h_inits_count R rnn2 tanh_cell x_seq (mkT [0; 1] []) 0 [1]).
    + reflexivity.
    + reflexivity.
    + simpl; lia.
    + simpl; lia.
Defined.

Lemma call_shape_contract_witness :
  exists rs out hn h_L,
    Forall2 (fun n r => batch_forward rnn1 (sub x_two n) (sub h_two n) = Ok r) (seq 0 2) rs /\
    __call__ rnn1 {| N := Some 2 |} x_two (Some h_two) = Ok (out, h_L) /\
    has_shape [2; 3; hidden_size rnn1] out /\ iter out = Ok (map fst rs) /\
    has_shape [2; num_layers rnn1; hidden_size rnn1] hn /\ iter hn = Ok (map snd rs) /\
    has_shape [num_layers rnn1; 2; hidden_size rnn1] h_L /\
    forall n l k, n < 2 -> l < num_layers rnn1 -> k < hidden_size rnn1 ->
      nth ((l * 2 + n) * hidden_size rnn1 + k) (data h_L) fzero
      = nth ((n * num_layers rnn1 + l) * hidden_size rnn1 + k) (data hn) fzero.
Proof.
  apply (@call_shape_contract R R_scalar rnn1 {| N := Some 2 |} x_two h_two 2 3).
  - reflexivity.
  - reflexivity.
  - lia.
  - lia.
  - simpl; lia.
  - split; reflexivity.
  - split; reflexivity.
Defined.

Lemma call_reshapes_h_0_witness :
  shape h_two_transposed = [num_layers rnn1; 2; hidden_size rnn1] /\
  reshape h_two_transposed [2; num_layers rnn1; hidden_size rnn1]
    = Ok (mkT [2; num_layers rnn1; hidden_size rnn1] (data h_two_transposed)) /\
  exists rs out h_L,
    Forall2 (fun n r =>
               batch_forward rnn1 (sub x_two n)
                 (mkT [num_layers rnn1; hidden_size rnn1]
                      (firstn (num_layers rnn1 * hidden_size rnn1)
                              (skipn (n * (num_layers rnn1 * hidden_size rnn1))
                                     (data h_two_transposed))))
               = Ok r)
            (seq 0 2) rs /\
    __call__ rnn1 {| N := Some 2 |} x_two (Some h_two_transposed) = Ok (out, h_L) /\
    __call__ rnn1 {| N := Some 2 |} x_two
             (Some (mkT [2; num_layers rnn1; hidden_size rnn1] (data h_two_transposed)))
      = Ok (out, h_L) /\
    iter out = Ok (map fst rs).
Proof.
  split; [reflexivity|].
  apply (@call_reshapes_h_0 R R_scalar rnn1 {| N := Some 2 |} x_two h_two_transposed 2 3).
  - reflexivity.
  - reflexivity.
  - lia.
  - lia.
  - simpl; lia.
  - split; reflexivity.
  - reflexivity.
  - reflexivity.
Defined.

Lemma call_rejects_wrong_numel_witness :
  numel (shape h_vec) = 2 /\ 2 * num_layers rnn1 * hidden_size rnn1 = 4 /\
  __call__ rnn1 {| N := Some 2 |} x_two (Some h_vec) = Raise RuntimeError.
Proof.
  split; [reflexivity|]. split; [reflexivity|].
  apply (@call_rejects_wrong_numel R R_scalar rnn1 {| N := Some 2 |} x_two h_vec 2).
  - reflexivity.
  - simpl; lia.
Defined.

Lemma empty_sequence_raises_witness :
  cum_map cell1 x_none h_vec = Raise RuntimeError /\
  raises (__call__ rnn1 {| N := Some 1 |} x_empty None).
Proof.
  apply (@empty_sequence_raises R R_scalar rnn1 {| N := Some 1 |} cell1 x_none h_vec
           x_empty None [2] 1 2); reflexivity.
Defined.

Lemma single_row_calls_raise_witness :
  (exists out h_L, __call__ rnn1 {| N := Some 2 |} x_two (Some h_two) = Ok (out, h_L)) /\
  (forall r, __call__ rnn1 {| N := Some 2 |} x_two (Some h_two) = Ok r ->
     forall n, n < 2 ->
       __call__ rnn1 {| N := Some 2 |} (slice x_two n) (Some (slice h_two n))
       = Raise RuntimeError).
Proof.
  apply (@single_row_calls_raise R R_scalar rnn1 {| N := Some 2 |} x_two h_two 2 3).
  - reflexivity.
  - lia.
  - lia.
  - simpl; lia.
  - simpl; lia.
  - split; reflexivity.
  - split; reflexivity.
Defined.

Lemma batch_independence_witness :
  exists out h_L singles,
    __call__ rnn1 {| N := Some 2 |} x_two (Some h_two) = Ok (out, h_L) /\
    length singles = 2 /\
    (forall n r, nth_error singles n = Some r ->
       __call__ rnn1 {| N := Some 1 |} (slice x_two n) (Some (slice h_two n)) = Ok r) /\
    cat0 (map fst singles) = Ok out /\
    cat1 (map snd singles) = Ok h_L.
Proof.
  apply (@batch_independence R R_scalar rnn1 x_two h_two 2 3).
  - reflexivity.
  - lia.
  - lia.
  - simpl; lia.
  - split; reflexivity.
  - split; reflexivity.
Defined.

End Concrete.

(** * Further properties of the forward pass *)

(** ** What [zip(x, h_0)] leaves out *)

Section ZipFacts.
Context {F : Type} {SF : Scalar F}.

Lemma chunks_prefix (A : Type) (n k : nat) (d : list A) :
  chunks n k (firstn (n * k) d) = chunks n k d.
Proof.
  revert d; induction n as [|n IH]; intros d; [reflexivity|].
  cbn [chunks]. f_equal.
  - rewrite firstn_firstn. f_equal. simpl. lia.
  - rewrite skipn_firstn_comm. replace (S n * k - k) with (n * k) by (simpl; lia).
    apply IH.
Qed.

Lemma chunks_firstn (A : Type) (n m k : nat) (d : list A) :
  n <= m -> chunks n k d = firstn n (chunks m k d).
Proof.
  revert m d; induction n as [|n IH]; intros m d Hnm; [reflexivity|].
  destruct m as [|m]; [lia|]. cbn [chunks firstn]. f_equal. apply IH. lia.
Qed.

Lemma chunks_repeat (A : Type) (n k : nat) (a : A) :
  chunks n k (repeat a (n * k)) = repeat (repeat a k) n.
Proof.
  assert (Hc : concat (repeat (repeat a k) n) = repeat a (n * k)).
  { induction n as [|n IH]; [reflexivity|].
    cbn [repeat concat]. rewrite IH, <- repeat_app. reflexivity. }
  rewrite <- Hc. rewrite <- (repeat_length (repeat a k) n) at 1.
  apply chunks_concat. apply Forall_forall. intros c Hc'.
  apply repeat_spec in Hc'. subst c. apply repeat_length.
Qed.

Lemma firstn_repeat_le (A : Type) (m n : nat) (a : A) :
  m <= n -> firstn m (repeat a n) = repeat a m.
Proof.
  revert n; induction m as [|m IH]; intros n Hmn; [reflexivity|].
  destruct n as [|n]; [lia|]. cbn [repeat firstn]. f_equal. apply IH. lia.
Qed.

(** X1: without [h_0], the call does not depend on how far the global [N]
    exceeds the batch size of [x]: the rows of zeros beyond the batch are
    never read. *)
Theorem call_default_any_larger_N (self : RNN) (g : globals) (x : tensor F)
    (n B : nat) (s : list nat) :
  N g = Some n -> shape x = B :: s -> B <= n ->
  __call__ self g x None = __call__ self {| N := Some B |} x None.
Proof.
  intros HN Hs HB. unfold __call__, global_N. rewrite HN. cbn [N bind].
  unfold reshape, zeros. cbn [shape data].
  replace (numel [num_layers self; n; hidden_size self])
    with (n * numel [num_layers self; hidden_size self]) by (simpl; lia).
  replace (numel [n; num_layers self; hidden_size self])
    with (n * numel [num_layers self; hidden_size self]) by (simpl; lia).
  replace (numel [num_layers self; B; hidden_size self])
    with (B * numel [num_layers self; hidden_size self]) by (simpl; lia).
  replace (numel [B; num_layers self; hidden_size self])
    with (B * numel [num_layers self; hidden_size self]) by (simpl; lia).
  rewrite !Nat.eqb_refl. cbn [bind]. rewrite (iter_eq x Hs). cbn [bind].
  unfold iter. cbn [shape data bind]. rewrite !chunks_repeat.
  set (xs := map (mkT s) (chunks B (numel s) (data x))).
  assert (Hxs : length xs = B) by (unfold xs; now rewrite length_map, chunks_length).
  rewrite (combine_firstn_l xs (map _ (repeat _ n))).
  now rewrite firstn_map, Hxs, firstn_repeat_le.
Qed.

(** X2: a batch with more rows than the global [N] is cut to its first [N]
    rows: the call returns what it returns on [x[:N]], whatever [h_0] is. *)
Theorem call_truncates_batch (self : RNN) (g : globals) (x : tensor F)
    (h_0 : option (tensor F)) (n B : nat) (s : list nat) :
  N g = Some n -> shape x = B :: s -> n <= B ->
  __call__ self g x h_0
  = __call__ self g (mkT (n :: s) (firstn (n * numel s) (data x))) h_0.
Proof.
  intros HN Hs Hn. unfold __call__, global_N. rewrite HN. cbn [bind].
  destruct (match h_0 with
            | Some h => Ok h
            | None => Ok (zeros [num_layers self; n; hidden_size self])
            end) as [t|e]; cbn [bind]; [|reflexivity].
  destruct (reshape t [n; num_layers self; hidden_size self]) as [h'|e] eqn:Er;
    cbn [bind]; [|reflexivity].
  unfold reshape in Er. destruct (_ =? _); [|discriminate]. injection Er as <-.
  rewrite (iter_eq x Hs). unfold iter at 3. cbn [shape data bind].
  unfold iter. cbn [shape data bind]. rewrite chunks_prefix.
  set (hs := map (mkT [num_layers self; hidden_size self]) _).
  assert (Hhs : length hs = n) by (unfold hs; now rewrite length_map, chunks_length).
  rewrite (combine_firstn_r (map (mkT s) (chunks B (numel s) (data x))) hs).
  now rewrite firstn_map, Hhs, <- (chunks_firstn (numel s) (data x) Hn).
Qed.

(** X3: when the global [N] exceeds the batch size [B] of [x], the rows of
    a supplied [h_0] beyond the first [B] are not read: the call returns what
    it returns with [N = B] and the first [B] rows of the reshaped [h_0]. *)
Theorem call_ignores_extra_h_0_rows (self : RNN) (g : globals) (x h_0 : tensor F)
    (n B : nat) (s : list nat) :
  N g = Some n -> shape x = B :: s -> B <= n ->
  wf h_0 -> numel (shape h_0) = n * (num_layers self * hidden_size self) ->
  __call__ self g x (Some h_0)
  = __call__ self {| N := Some B |} x
      (Some (mkT [B; num_layers self; hidden_size self]
                 (firstn (B * (num_layers self * hidden_size self)) (data h_0)))).
Proof.
  intros HN Hs HB Hwf Hnum. unfold __call__, global_N. rewrite HN. cbn [N bind].
  rewrite reshape_eq by (rewrite Hnum; simpl; lia).
  rewrite reshape_eq by reflexivity. cbn [bind data].
  rewrite (iter_eq x Hs). cbn [bind]. unfold iter. cbn [shape data bind].
  replace (numel [num_layers self; hidden_size self])
    with (num_layers self * hidden_size self) by (simpl; lia).
  rewrite chunks_prefix.
  set (xs := map (mkT s) (chunks B (numel s) (data x))).
  assert (Hxs : length xs = B) by (unfold xs; now rewrite length_map, chunks_length).
  rewrite (combine_firstn_l xs (map _ (chunks n _ _))).
  now rewrite firstn_map, Hxs, <- (chunks_firstn _ (data h_0) HB).
Qed.

End ZipFacts.

(** ** Scanning a sequence in two pieces *)

Section ContinuationFacts.
Context {F : Type} {SF : Scalar F}.

(** Two tensors joined along axis 0, [L] being the size of the joined axis. *)
Definition join (L : nat) (a b : tensor F) : tensor F :=
  mkT (L :: tl (shape a)) (data a ++ data b).

Lemma chunks_app (A : Type) (n1 n2 k : nat) (d1 d2 : list A) :
  length d1 = n1 * k ->
  chunks (n1 + n2) k (d1 ++ d2) = chunks n1 k d1 ++ chunks n2 k d2.
Proof.
  revert d1; induction n1 as [|n1 IH]; intros d1 Hd.
  - destruct d1; [reflexivity|discriminate].
  - cbn [Nat.add chunks app]. simpl in Hd.
    rewrite firstn_app, skipn_app.
    replace (k - length d1) with 0 by lia. cbn [firstn skipn].
    rewrite app_nil_r. f_equal. apply IH. rewrite length_skipn. lia.
Qed.

Lemma cat0_pair (a b : tensor F) (n1 n2 : nat) (s : list nat) :
  shape a = n1 :: s -> shape b = n2 :: s ->
  cat0 [a; b] = Ok (join (n1 + n2) a b).
Proof.
  intros Ha Hb. unfold cat0, join. cbn [forallb map list_sum concat].
  rewrite Ha, Hb. cbn [tl hd length]. rewrite shape_eqb_refl. cbn.
  now rewrite Nat.add_0_r, app_nil_r.
Qed.

Lemma join_has_shape (a b : tensor F) (n1 n2 : nat) (s : list nat) :
  has_shape (n1 :: s) a -> has_shape (n2 :: s) b -> has_shape (n1 + n2 :: s) (join (n1 + n2) a b).
Proof.
  intros [Ha Hsa] [Hb Hsb]. unfold wf in *. rewrite Hsa in Ha. rewrite Hsb in Hb.
  unfold join. rewrite Hsa. split; [|reflexivity]. unfold wf. cbn [data shape tl].
  rewrite length_app, Ha, Hb. simpl. lia.
Qed.

Lemma iter_join (a b : tensor F) (n1 n2 : nat) (s : list nat) :
  has_shape (n1 :: s) a -> shape b = n2 :: s ->
  iter (join (n1 + n2) a b)
  = Ok (map (mkT s) (chunks n1 (numel s) (data a))
        ++ map (mkT s) (chunks n2 (numel s) (data b))).
Proof.
  intros [Ha Hsa] Hsb. unfold wf in Ha. rewrite Hsa in Ha. simpl in Ha.
  unfold iter, join. rewrite Hsa. cbn [shape data tl].
  now rewrite chunks_app, map_app.
Qed.

Lemma cum_map_loop_acc (f : cell) (xs : list (tensor F)) :
  forall h acc,
    cum_map_loop f xs h acc
    = '(r, h') <- cum_map_loop f xs h [] ;; Ok (acc ++ r, h').
Proof.
  induction xs as [|x xs IH]; intros h acc.
  - cbn. now rewrite app_nil_r.
  - cbn [cum_map_loop]. destruct (f x h) as [h1|e]; cbn [bind]; [|reflexivity].
    rewrite (IH h1 (acc ++ [h1])), (IH h1 ([] ++ [h1])).
    destruct (cum_map_loop f xs h1 []) as [[r h']|e]; cbn [bind]; [|reflexivity].
    now rewrite <- app_assoc.
Qed.

Lemma cum_map_loop_app (f : cell) (xs1 xs2 : list (tensor F)) :
  forall h acc,
    cum_map_loop f (xs1 ++ xs2) h acc
    = '(acc', h') <- cum_map_loop f xs1 h acc ;; cum_map_loop f xs2 h' acc'.
Proof.
  induction xs1 as [|x xs1 IH]; intros h acc; [reflexivity|].
  cbn [app cum_map_loop]. destruct (f x h) as [h1|e]; cbn [bind]; [|reflexivity].
  apply IH.
Qed.

Lemma cum_map_split (f : cell) (xs1 xs2 h : tensor F) (L1 L2 : nat) (sx sh : list nat) :
  cell_typed f sx sh -> 1 <= L1 -> 1 <= L2 ->
  has_shape (L1 :: sx) xs1 -> has_shape (L2 :: sx) xs2 -> has_shape sh h ->
  exists o1 h1 o2 h2,
    cum_map f xs1 h = Ok (o1, h1) /\ cum_map f xs2 h1 = Ok (o2, h2) /\
    cum_map f (join (L1 + L2) xs1 xs2) h = Ok (join (L1 + L2) o1 o2, h2) /\
    has_shape (L1 :: sh) o1 /\ has_shape (L2 :: sh) o2 /\
    has_shape sh h1 /\ has_shape sh h2.
Proof.
  intros Hf HL1 HL2 Hx1 Hx2 Hh.
  pose proof (iter_rows_shape Hx1) as Hr1. pose proof (iter_rows_shape Hx2) as Hr2.
  set (rows1 := map (mkT sx) (chunks L1 (numel sx) (data xs1))) in *.
  set (rows2 := map (mkT sx) (chunks L2 (numel sx) (data xs2))) in *.
  destruct (cum_map_loop_scan Hf Hr1 [] Hh) as (hs1 & Hlen1 & Hall1 & _ & Hloop1).
  assert (Hh1 : has_shape sh (last hs1 h)).
  { destruct hs1 as [|a hs1];
      [unfold rows1 in Hlen1; rewrite length_map, chunks_length in Hlen1;
       simpl in Hlen1; lia|].
    rewrite Forall_forall in Hall1. apply Hall1.
    rewrite (app_removelast_last h (l:=a :: hs1)) at 2 by discriminate.
    apply in_or_app. right. now left. }
  destruct (cum_map_loop_scan Hf Hr2 [] Hh1) as (hs2 & Hlen2 & Hall2 & _ & Hloop2).
  assert (Hh2 : has_shape sh (last hs2 (last hs1 h))).
  { destruct hs2 as [|a hs2];
      [unfold rows2 in Hlen2; rewrite length_map, chunks_length in Hlen2;
       simpl in Hlen2; lia|].
    rewrite Forall_forall in Hall2. apply Hall2.
    rewrite (app_removelast_last (last hs1 h) (l:=a :: hs2)) at 2 by discriminate.
    apply in_or_app. right. now left. }
  unfold rows1 in Hlen1. unfold rows2 in Hlen2.
  rewrite length_map, chunks_length in Hlen1, Hlen2.
  cbn [app] in Hloop1, Hloop2.
  exists (mkT (L1 :: sh) (concat (map data hs1))), (last hs1 h),
         (mkT (L2 :: sh) (concat (map data hs2))), (last hs2 (last hs1 h)).
  assert (Hne1 : hs1 <> []) by (destruct hs1; [simpl in Hlen1; lia|discriminate]).
  assert (Hne2 : hs2 <> []) by (destruct hs2; [simpl in Hlen2; lia|discriminate]).
  split; [|split; [|split; [|split; [|split; [|split]]]]].
  - unfold cum_map. rewrite (iter_eq _ (proj2 Hx1)). fold rows1. cbn [bind].
    rewrite Hloop1. cbn [bind].
    rewrite (stack_eq Hne1 (has_shape_shapes Hall1)). now rewrite Hlen1.
  - unfold cum_map. rewrite (iter_eq _ (proj2 Hx2)). fold rows2. cbn [bind].
    rewrite Hloop2. cbn [bind].
    rewrite (stack_eq Hne2 (has_shape_shapes Hall2)). now rewrite Hlen2.
  - unfold cum_map. rewrite (@iter_join xs1 xs2 L1 L2 sx Hx1 (proj2 Hx2)). fold rows1 rows2. cbn [bind].
    rewrite cum_map_loop_app, Hloop1. cbn [bind].
    rewrite cum_map_loop_acc, Hloop2. cbn [bind].
    rewrite (stack_eq (s:=sh) (ts:=hs1 ++ hs2)).
    + cbn [bind]. unfold join. cbn [shape data tl].
      now rewrite length_app, Hlen1, Hlen2, map_app, concat_app.
    + destruct hs1; [congruence|discriminate].
    + apply has_shape_shapes, Forall_app. now split.
  - now apply stacked_has_shape_n.
  - now apply stacked_has_shape_n.
  - exact Hh1.
  - exact Hh2.
Qed.

(** X4: a sequence may be scanned in two pieces.  Scanning the first
    [L1] steps from [h], then the next [L2] steps from the state the first
    scan ended in, gives the outputs and the final state of the scan of all
    [L1 + L2] steps at once. *)
Theorem cum_map_continuation (f : cell) (xs1 xs2 h : tensor F) (L1 L2 : nat)
    (sx sh : list nat) :
  cell_typed f sx sh -> 1 <= L1 -> 1 <= L2 ->
  has_shape (L1 :: sx) xs1 -> has_shape (L2 :: sx) xs2 -> has_shape sh h ->
  exists o1 h1 o2 h2 xs out,
    cum_map f xs1 h = Ok (o1, h1) /\ cum_map f xs2 h1 = Ok (o2, h2) /\
    cat0 [xs1; xs2] = Ok xs /\ cat0 [o1; o2] = Ok out /\
    cum_map f xs h = Ok (out, h2).
Proof.
  intros Hf HL1 HL2 Hx1 Hx2 Hh.
  destruct (cum_map_split Hf HL1 HL2 Hx1 Hx2 Hh)
    as (o1 & h1 & o2 & h2 & H1 & H2 & H12 & Ho1 & Ho2 & _ & _).
  exists o1, h1, o2, h2, (join (L1 + L2) xs1 xs2), (join (L1 + L2) o1 o2).
  split; [exact H1|]. split; [exact H2|].
  split; [exact (@cat0_pair xs1 xs2 L1 L2 sx (proj2 Hx1) (proj2 Hx2))|].
  split; [exact (@cat0_pair o1 o2 L1 L2 sh (proj2 Ho1) (proj2 Ho2))|exact H12].
Qed.

Lemma layers_loop_split (self : RNN) (f : cell_fn) (n L1 L2 : nat) (sx sh : list nat)
    (rows : list (tensor F)) :
  1 <= L1 -> 1 <= L2 -> layers_typed self f n sx sh -> Forall (has_shape sh) rows ->
  forall (i : nat) (xA xB : tensor F) (accA accB accC : list (tensor F)),
    i + length rows <= n ->
    has_shape (L1 :: (if i =? 0 then sx else sh)) xA ->
    has_shape (L2 :: (if i =? 0 then sx else sh)) xB ->
    exists outA outB finalsA finalsB,
      length finalsA = length rows /\ length finalsB = length rows /\
      Forall (has_shape sh) finalsA /\ Forall (has_shape sh) finalsB /\
      layers_loop self f (combine (seq i (length rows)) rows) xA accA
        = Ok (outA, accA ++ finalsA) /\
      layers_loop self f (combine (seq i (length rows)) finalsA) xB accB
        = Ok (outB, accB ++ finalsB) /\
      layers_loop self f (combine (seq i (length rows)) rows) (join (L1 + L2) xA xB) accC
        = Ok (join (L1 + L2) outA outB, accC ++ finalsB) /\
      has_shape (L1 :: match rows with [] => if i =? 0 then sx else sh | _ => sh end) outA /\
      has_shape (L2 :: match rows with [] => if i =? 0 then sx else sh | _ => sh end) outB.
Proof.
  intros HL1 HL2 Hf Hrows; induction Hrows as [|h0 rows Hh0 _ IH];
    intros i xA xB accA accB accC Hi HxA HxB.
  - exists xA, xB, [], []. cbn [length seq combine layers_loop].
    rewrite !app_nil_r. repeat split; try constructor; try apply HxA; apply HxB.
  - simpl in Hi. destruct (Hf i ltac:(lia)) as (g & Hg & Hty).
    destruct (cum_map_split Hty HL1 HL2 HxA HxB Hh0)
      as (o1 & h1 & o2 & h2 & H1 & H2 & H12 & Ho1 & Ho2 & Hh1 & Hh2).
    destruct (IH (S i) o1 o2 (accA ++ [h1]) (accB ++ [h2]) (accC ++ [h2])
                 ltac:(lia) Ho1 Ho2)
      as (outA & outB & fA & fB & HlA & HlB & HfA & HfB & EA & EB & EC & HoA & HoB).
    exists outA, outB, (h1 :: fA), (h2 :: fB).
    split; [simpl; now rewrite HlA|]. split; [simpl; now rewrite HlB|].
    split; [now constructor|]. split; [now constructor|].
    split; [|split; [|split; [|split]]].
    + cbn [length seq combine layers_loop]. rewrite Hg. cbn [bind]. rewrite H1.
      cbn [bind]. rewrite EA. now rewrite <- app_assoc.
    + cbn [length seq combine layers_loop]. rewrite Hg. cbn [bind]. rewrite H2.
      cbn [bind]. rewrite EB. now rewrite <- app_assoc.
    + cbn [length seq combine layers_loop]. rewrite Hg. cbn [bind].
      rewrite H12. cbn [bind]. rewrite EC. now rewrite <- app_assoc.
    + now destruct rows.
    + now destruct rows.
Qed.

Lemma layers_forward_split (self : RNN) (f : cell_fn) (x1 x2 h_inits : tensor F)
    (n L1 L2 : nat) (sx sh : list nat) :
  1 <= L1 -> 1 <= L2 -> 1 <= n -> layers_typed self f n sx sh ->
  has_shape (L1 :: sx) x1 -> has_shape (L2 :: sx) x2 -> has_shape (n :: sh) h_inits ->
  exists o1 hn1 o2 hn2,
    layers_forward self f x1 h_inits = Ok (o1, hn1) /\
    layers_forward self f x2 hn1 = Ok (o2, hn2) /\
    layers_forward self f (join (L1 + L2) x1 x2) h_inits = Ok (join (L1 + L2) o1 o2, hn2) /\
    has_shape (L1 :: sh) o1 /\ has_shape (L2 :: sh) o2 /\
    has_shape (n :: sh) hn1 /\ has_shape (n :: sh) hn2.
Proof.
  intros HL1 HL2 Hn Hf Hx1 Hx2 Hh.
  pose proof (iter_rows_shape Hh) as Hrows.
  set (rows := map (mkT sh) (chunks n (numel sh) (data h_inits))) in *.
  assert (Hlen : length rows = n) by (unfold rows; now rewrite length_map, chunks_length).
  destruct (@layers_loop_split self f n L1 L2 sx sh rows HL1 HL2 Hf Hrows 0 x1 x2 [] [] [])
    as (o1 & o2 & fA & fB & HlA & HlB & HfA & HfB & EA & EB & EC & Ho1 & Ho2);
    [lia|exact Hx1|exact Hx2|].
  rewrite Hlen in *. cbn [app] in EA, EB, EC.
  assert (HneA : fA <> []) by (destruct fA; [simpl in HlA; lia|discriminate]).
  assert (HneB : fB <> []) by (destruct fB; [simpl in HlB; lia|discriminate]).
  assert (Hrne : rows <> []) by (destruct rows; [simpl in Hlen; lia|discriminate]).
  exists o1, (mkT (n :: sh) (concat (map data fA))), o2, (mkT (n :: sh) (concat (map data fB))).
  split; [|split; [|split; [|split; [|split; [|split]]]]].
  - unfold layers_forward. rewrite (iter_eq _ (proj2 Hh)). fold rows. cbn [bind].
    unfold enumerate. rewrite Hlen, EA. cbn [bind].
    rewrite (stack_eq HneA (has_shape_shapes HfA)). now rewrite HlA.
  - unfold layers_forward. rewrite (iter_stacked_n HlA HfA). cbn [bind].
    unfold enumerate. rewrite HlA, EB. cbn [bind].
    rewrite (stack_eq HneB (has_shape_shapes HfB)). now rewrite HlB.
  - unfold layers_forward. rewrite (iter_eq _ (proj2 Hh)). fold rows. cbn [bind].
    unfold enumerate. rewrite Hlen, EC. cbn [bind].
    rewrite (stack_eq HneB (has_shape_shapes HfB)). now rewrite HlB.
  - destruct rows; [congruence|exact Ho1].
  - destruct rows; [congruence|exact Ho2].
  - now apply stacked_has_shape_n.
  - now apply stacked_has_shape_n.
Qed.

(** X5: the layer stack may be run on a sequence in two pieces.  Running
    [batch_forward] on the first [L1] steps from [h_0], then on the next
    [L2] steps from the final states [hn1] it returned, gives the output
    sequence and the final states of one run on all [L1 + L2] steps. *)
Theorem batch_forward_continuation (self : RNN) (x1 x2 h_0 : tensor F) (L1 L2 : nat) :
  init_inv self = true -> 1 <= L1 -> 1 <= L2 -> 1 <= num_layers self ->
  has_shape [L1; input_size self] x1 -> has_shape [L2; input_size self] x2 ->
  has_shape [num_layers self; hidden_size self] h_0 ->
  exists o1 hn1 o2 hn2 x out,
    batch_forward self x1 h_0 = Ok (o1, hn1) /\
    batch_forward self x2 hn1 = Ok (o2, hn2) /\
    cat0 [x1; x2] = Ok x /\ cat0 [o1; o2] = Ok out /\
    batch_forward self x h_0 = Ok (out, hn2).
Proof.
  intros Hinv HL1 HL2 Hn Hx1 Hx2 Hh.
  destruct (layers_forward_split HL1 HL2 Hn (init_inv_layers_typed self Hinv) Hx1 Hx2 Hh)
    as (o1 & hn1 & o2 & hn2 & H1 & H2 & H12 & Ho1 & Ho2 & _ & _).
  exists o1, hn1, o2, hn2, (join (L1 + L2) x1 x2), (join (L1 + L2) o1 o2).
  split; [exact H1|]. split; [exact H2|].
  split; [exact (@cat0_pair x1 x2 L1 L2 _ (proj2 Hx1) (proj2 Hx2))|].
  split; [exact (@cat0_pair o1 o2 L1 L2 _ (proj2 Ho1) (proj2 Ho2))|exact H12].
Qed.

End ContinuationFacts.

(** ** Fewer initial hidden vectors than layers *)

Section FirstLayersFacts.
Context {F : Type} {SF : Scalar F}.

(** The model made of the first [k] layers of [self]. *)
Definition first_layers (self : @RNN F) (k : nat) : @RNN F :=
  {| input_size := input_size self;
     hidden_size := hidden_size self;
     num_layers := k;
     ws_ih := firstn k (ws_ih self);
     ws_hh := firstn k (ws_hh self);
     bs_ih := firstn k (bs_ih self);
     bs_hh := firstn k (bs_hh self) |}.

Lemma index_firstn (A : Type) (l : list A) (k i : nat) :
  i < k -> index (firstn k l) i = index l i.
Proof.
  intros Hi. unfold index. rewrite nth_error_firstn.
  destruct (Nat.ltb_spec i k); [reflexivity|lia].
Qed.

Lemma f_partial_first_layers (self : RNN) (f : cell_fn) (k i : nat) :
  i < k -> f_partial (first_layers self k) f i = f_partial self f i.
Proof.
  intros Hi. unfold f_partial, first_layers. cbn [ws_ih ws_hh bs_ih bs_hh].
  now rewrite !index_firstn.
Qed.

Lemma layers_loop_first_layers (self : RNN) (f : cell_fn) (k : nat)
    (rows : list (tensor F)) :
  forall i x acc,
    i + length rows <= k ->
    layers_loop (first_layers self k) f (combine (seq i (length rows)) rows) x acc
    = layers_loop self f (combine (seq i (length rows)) rows) x acc.
Proof.
  induction rows as [|h0 rows IH]; intros i x acc Hi; [reflexivity|].
  simpl in Hi. cbn [length seq combine layers_loop].
  rewrite f_partial_first_layers by lia.
  destruct (f_partial self f i) as [g|e]; cbn [bind]; [|reflexivity].
  destruct (cum_map g x h0) as [[x' h_L]|e]; cbn [bind]; [|reflexivity].
  apply IH. lia.
Qed.

(** X6: [layers_forward] reads the parameters of as many layers as it is
    given initial hidden vectors.  With [k] vectors it returns what the model
    made of the first [k] layers returns; the other layers are never run. *)
Theorem layers_forward_first_layers (self : RNN) (f : cell_fn) (x h_inits : tensor F)
    (k : nat) (s : list nat) :
  shape h_inits = k :: s ->
  layers_forward self f x h_inits = layers_forward (first_layers self k) f x h_inits.
Proof.
  intros Hs. unfold layers_forward. rewrite (iter_eq _ Hs). cbn [bind].
  unfold enumerate.
  rewrite layers_loop_first_layers; [reflexivity|].
  rewrite length_map, chunks_length. lia.
Qed.

End FirstLayersFacts.

(** ** Inputs of the wrong feature dimension *)

Section FeatureFacts.
Context {F : Type} {SF : Scalar F}.

Lemma einsum_ij_j_mismatch (w x : tensor F) (r c c' : nat) :
  shape w = [r; c] -> shape x = [c'] -> c <> c' -> c <> 1 -> c' <> 1 ->
  einsum_ij_j w x = Raise RuntimeError.
Proof.
  intros Hw Hx H1 H2 H3. unfold einsum_ij_j. rewrite Hw, Hx.
  apply Nat.eqb_neq in H1, H2, H3. now rewrite H1, H2, H3.
Qed.

Lemma batch_forward_feature_mismatch (self : RNN) (x h_0 : tensor F) (L D n : nat)
    (s : list nat) :
  init_inv self = true -> 1 <= L -> 1 <= n -> n <= num_layers self ->
  shape x = [L; D] -> shape h_0 = n :: s ->
  D <> input_size self -> D <> 1 -> input_size self <> 1 ->
  batch_forward self x h_0 = Raise RuntimeError.
Proof.
  intros Hinv HL Hn Hnl Hx Hh HD HD1 HI1.
  destruct (init_inv_layers_typed self Hinv (l:=0)) as (g & Hg & _); [lia|].
  unfold batch_forward, layers_forward. rewrite (iter_eq _ Hh). cbn [bind].
  unfold enumerate. rewrite length_map, chunks_length.
  destruct n as [|n]; [lia|]. cbn [chunks map seq combine layers_loop].
  rewrite Hg. cbn [bind].
  unfold cum_map. rewrite (iter_eq _ Hx). cbn [bind].
  destruct L as [|L]; [lia|]. cbn [chunks map cum_map_loop].
  unfold f_partial in Hg.
  destruct (index (ws_ih self) 0) as [w_ih|] eqn:E1; [|discriminate].
  destruct (index (ws_hh self) 0) as [w_hh|]; [|discriminate].
  destruct (index (bs_ih self) 0) as [b_ih|]; [|discriminate].
  destruct (index (bs_hh self) 0) as [b_hh|]; [|discriminate].
  cbn [bind] in Hg. injection Hg as <-.
  assert (Hw : shape w_ih = [hidden_size self; input_size self]).
  { unfold init_inv in Hinv. repeat (apply andb_prop in Hinv as [Hinv ?]).
    unfold index in E1. destruct (nth_error (ws_ih self) 0) as [w|] eqn:E; [|discriminate].
    injection E1 as ->.
    match goal with
    | Hp : params_ok _ 0 (ws_ih self) = true |- _ =>
        exact (proj2 (@params_ok_nth _ (fun l => [hidden_size self; layer_input_size self l])
                        _ 0 0 w_ih Hp E))
    end. }
  unfold tanh_cell.
  rewrite (@einsum_ij_j_mismatch w_ih (mkT [D] _) (hidden_size self) (input_size self) D
             Hw eq_refl); auto.
Qed.

(** X7: an input whose feature dimension [D] is not [input_size] is
    rejected with a [RuntimeError], with or without [h_0], unless [D] or
    [input_size] is 1 (sizes that torch broadcasts). *)
Theorem call_feature_mismatch (self : RNN) (g : globals) (x : tensor F)
    (h_0 : option (tensor F)) (n B L D : nat) :
  init_inv self = true -> N g = Some n ->
  1 <= n -> 1 <= B -> 1 <= L -> 1 <= num_layers self ->
  shape x = [B; L; D] ->
  D <> input_size self -> D <> 1 -> input_size self <> 1 ->
  __call__ self g x h_0 = Raise RuntimeError.
Proof.
  intros Hinv HN Hn HB HL Hnl Hx HD HD1 HI1.
  unfold __call__, global_N. rewrite HN. cbn [bind].
  destruct (match h_0 with
            | Some h => Ok h
            | None => Ok (zeros [num_layers self; n; hidden_size self])
            end) as [t|e] eqn:Et; cbn [bind]; [|destruct h_0; discriminate].
  unfold reshape. destruct (_ =? _); cbn [bind]; [|reflexivity].
  rewrite (iter_eq x Hx). cbn [bind]. unfold iter. cbn [shape data bind].
  destruct B as [|B]; [lia|]. destruct n as [|n]; [lia|].
  cbn [chunks map combine batch_loop].
  rewrite (@batch_forward_feature_mismatch self (mkT [L; D] _)
             (mkT [num_layers self; hidden_size self] _) L D (num_layers self)
             [hidden_size self] Hinv HL Hnl (le_n _) eq_refl eq_refl HD HD1 HI1).
  reflexivity.
Qed.

End FeatureFacts.

(** * The construction of the model and the injection of weights *)

From Stdlib Require String DecimalString DecimalNat.
Import String.StringSyntax.
Delimit Scope string_scope with string.

(** ** Parameter objects, the random generator and [__init__] *)

(** The exceptions of the construction and of the notebook cell that copies
    the weights. *)
Inductive script_exn : Type :=
| ZeroDivisionError   (* [1/self.hidden_size] with [hidden_size = 0] *)
| AttributeError.     (* [getattr] of a name that is not set *)

Inductive outcome (A : Type) : Type :=
| Returns (a : A)
| Throws (e : script_exn).

Arguments Returns {A} a.
Arguments Throws {A} e.

Definition and_then {A B} (m : outcome A) (k : A -> outcome B) : outcome B :=
  match m with
  | Returns a => k a
  | Throws e => Throws e
  end.

Notation "' p <~ m ;; k" := (and_then m (fun p => k))
  (at level 61, p pattern, m at next level, right associativity).

(** The arithmetic of [_init_weight_] that the forward pass does not use:
    the constant [2.0], the subtraction, and
    [torch.sqrt(torch.tensor(1/hidden_size))] for a [hidden_size] that is
    not 0. *)
Class InitArith (F : Type) : Type := {
  ftwo : F;
  fsub : F -> F -> F;
  k_sqrt : nat -> F
}.

(** The four kinds of parameters of a layer, in the order [__init__] makes
    them. *)
Inductive kind : Type := W_ih | W_hh | B_ih | B_hh.

(** The attribute names, without the layer index. *)
Definition template (k : kind) : String.string :=
  match k with
  | W_ih => "weight_ih_l"%string
  | W_hh => "weight_hh_l"%string
  | B_ih => "bias_ih_l"%string
  | B_hh => "bias_hh_l"%string
  end.

(** [str(n)]. *)
Definition str (n : nat) : String.string :=
  DecimalString.NilEmpty.string_of_uint (Nat.to_uint n).

(** [(template + '{}').format(layer)], which is also [template + str(layer)]. *)
Definition format (template : String.string) (layer : nat) : String.string :=
  String.append template (str layer).

(** A dict from names to object identities: a key that is set again keeps
    its place. *)
Fixpoint dict_set (d : list (String.string * nat)) (k : String.string) (v : nat)
    : list (String.string * nat) :=
  match d with
  | [] => [(k, v)]
  | (k', v') :: d' =>
      if String.eqb k' k then (k', v) :: d' else (k', v') :: dict_set d' k v
  end.

Fixpoint dict_get (d : list (String.string * nat)) (k : String.string) : option nat :=
  match d with
  | [] => None
  | (k', v') :: d' => if String.eqb k' k then Some v' else dict_get d' k
  end.

(** An instance of the class [RNN]: its sizes, the four lists of parameter
    objects and the parameters registered under their names.  A parameter
    object is known by its identity. *)
Record RNN_object : Type := {
  o_input_size : nat;
  o_hidden_size : nat;
  o_num_layers : nat;
  o_ws_ih : list nat;
  o_ws_hh : list nat;
  o_bs_ih : list nat;
  o_bs_hh : list nat;
  _parameters : list (String.string * nat)
}.

(** [setattr(self, name, param)] for a parameter. *)
Definition setattr (self : RNN_object) (name : String.string) (param : nat) : RNN_object :=
  {| o_input_size := o_input_size self;
     o_hidden_size := o_hidden_size self;
     o_num_layers := o_num_layers self;
     o_ws_ih := o_ws_ih self;
     o_ws_hh := o_ws_hh self;
     o_bs_ih := o_bs_ih self;
     o_bs_hh := o_bs_hh self;
     _parameters := dict_set (_parameters self) name param |}.

(** [getattr(self, name)] for the name of a parameter. *)
Definition getattr (self : RNN_object) (name : String.string) : outcome nat :=
  match dict_get (_parameters self) name with
  | Some param => Returns param
  | None => Throws AttributeError
  end.

Section Construction.
Context {F : Type} {SF : Scalar F} {IA : InitArith F}.

(** The parameter objects that exist, each with its [.data]; the number of
    objects made so far; and the values the random generator will draw. *)
Record world : Type := {
  heap : nat -> tensor F;
  next : nat;
  gen : nat -> F
}.

(** [torch.rand(shape)]. *)
Definition rand (shape : list nat) (w : world) : tensor F * world :=
  (mkT shape (map (gen w) (seq 0 (numel shape))),
   {| heap := heap w; next := next w; gen := fun i => gen w (numel shape + i) |}).

(** [nn.Parameter(t)]: a new object. *)
Definition new_parameter (t : tensor F) (w : world) : nat * world :=
  (next w,
   {| heap := fun i => if i =? next w then t else heap w i;
      next := S (next w);
      gen := gen w |}).

(** [RNN._init_weight_]. *)
Definition _init_weight_ (self : RNN_object) (shape : list nat) (w : world)
    : outcome (nat * world) :=
  if o_hidden_size self =? 0 then Throws ZeroDivisionError
  else
    let k := k_sqrt (o_hidden_size self) in
    let '(r, w1) := rand shape w in
    let weight := mkT (Torch.shape r) (map (fun u => fsub (fmul (fmul ftwo k) u) k) (data r)) in
    Returns (new_parameter weight w1).

(** The body of the loop of [__init__]. *)
Definition init_layer (input_size hidden_size : nat) (self : RNN_object) (layer : nat)
    (w : world) : outcome (RNN_object * world) :=
  let layer_input_size := if layer =? 0 then input_size else hidden_size in
  '(w_ih, w) <~ _init_weight_ self [hidden_size; layer_input_size] w ;;
  '(w_hh, w) <~ _init_weight_ self [hidden_size; hidden_size] w ;;
  '(b_ih, w) <~ _init_weight_ self [hidden_size] w ;;
  '(b_hh, w) <~ _init_weight_ self [hidden_size] w ;;
  let self := setattr self (format (template W_ih) layer) w_ih in
  let self := setattr self (format (template W_hh) layer) w_hh in
  let self := setattr self (format (template B_ih) layer) b_ih in
  let self := setattr self (format (template B_hh) layer) b_hh in
  Returns ({| o_input_size := o_input_size self;
              o_hidden_size := o_hidden_size self;
              o_num_layers := o_num_layers self;
              o_ws_ih := o_ws_ih self ++ [w_ih];
              o_ws_hh := o_ws_hh self ++ [w_hh];
              o_bs_ih := o_bs_ih self ++ [b_ih];
              o_bs_hh := o_bs_hh self ++ [b_hh];
              _parameters := _parameters self |}, w).

Fixpoint init_layers (input_size hidden_size : nat) (self : RNN_object) (layers : list nat)
    (w : world) : outcome (RNN_object * world) :=
  match layers with
  | [] => Returns (self, w)
  | layer :: layers' =>
      '(self', w') <~ init_layer input_size hidden_size self layer w ;;
      init_layers input_size hidden_size self' layers' w'
  end.

(** [RNN.__init__]. *)
Definition __init__ (input_size hidden_size num_layers : nat) (w : world)
    : outcome (RNN_object * world) :=
  init_layers input_size hidden_size
    {| o_input_size := input_size; o_hidden_size := hidden_size;
       o_num_layers := num_layers;
       o_ws_ih := []; o_ws_hh := []; o_bs_ih := []; o_bs_hh := [];
       _parameters := [] |}
    (seq 0 num_layers) w.

(** The model that the forward pass reads in the world [w]: every
    parameter object with its [.data] at the time of the call. *)
Definition view (w : world) (self : RNN_object) : @RNN F :=
  {| input_size := o_input_size self;
     hidden_size := o_hidden_size self;
     num_layers := o_num_layers self;
     ws_ih := map (heap w) (o_ws_ih self);
     ws_hh := map (heap w) (o_ws_hh self);
     bs_ih := map (heap w) (o_bs_ih self);
     bs_hh := map (heap w) (o_bs_hh self) |}.

(** [param.data = t]. *)
Definition set_data (w : world) (param : nat) (t : tensor F) : world :=
  {| heap := fun i => if i =? param then t else heap w i;
     next := next w;
     gen := gen w |}.

(** [params] of the cell that copies the weights. *)
Definition params : list String.string :=
  ["bias_ih_l"; "bias_hh_l"; "weight_ih_l"; "weight_hh_l"]%string.

(** The loop of that cell over [product(params, [str(i) for i in
    range(num_layers)])]; [rnn_torch] gives the [.data] of the parameter of
    the reference model of a name, if it has one. *)
Fixpoint copy_loop (items : list (String.string * String.string)) (rnn_me : RNN_object)
    (rnn_torch : String.string -> option (tensor F)) (w : world) : outcome world :=
  match items with
  | [] => Returns w
  | (param, layer) :: items' =>
      ' param_me <~ getattr rnn_me (String.append param layer) ;;
      match rnn_torch (String.append param layer) with
      | None => Throws AttributeError
      | Some param_torch =>
          copy_loop items' rnn_me rnn_torch (set_data w param_me param_torch)
      end
  end.

Definition copy_parameters (num_layers : nat) (rnn_me : RNN_object)
    (rnn_torch : String.string -> option (tensor F)) (w : world) : outcome world :=
  copy_loop (list_prod params (map str (seq 0 num_layers))) rnn_me rnn_torch w.

End Construction.

(** ** Facts about names and dicts *)

Lemma str_inj (a b : nat) : str a = str b -> a = b.
Proof.
  unfold str. intros H.
  assert (Hu : Nat.to_uint a = Nat.to_uint b).
  { pose proof (DecimalString.NilEmpty.usu (Nat.to_uint a)) as Ha.
    pose proof (DecimalString.NilEmpty.usu (Nat.to_uint b)) as Hb.
    rewrite H in Ha. congruence. }
  rewrite <- (DecimalNat.Unsigned.of_to a), <- (DecimalNat.Unsigned.of_to b).
  now rewrite Hu.
Qed.

Lemma append_inj (p a b : String.string) : String.append p a = String.append p b -> a = b.
Proof.
  induction p as [|c p IH]; simpl; intros H; [exact H|].
  injection H as H. now apply IH.
Qed.

Lemma format_inj (k k' : kind) (l l' : nat) :
  format (template k) l = format (template k') l' -> k = k' /\ l = l'.
Proof.
  unfold format. intros H.
  destruct k, k'; cbn [template] in H;
    try (split; [reflexivity|]; apply append_inj in H; now apply str_inj in H);
    exfalso; cbn [String.append] in H; congruence.
Qed.

Lemma dict_get_set (d : list (String.string * nat)) (k k' : String.string) (v : nat) :
  dict_get (dict_set d k v) k' = if String.eqb k k' then Some v else dict_get d k'.
Proof.
  induction d as [|[k0 v0] d IH]; cbn [dict_set dict_get]; [reflexivity|].
  destruct (String.eqb_spec k0 k) as [->|Hne]; cbn [dict_get].
  - destruct (String.eqb k k'); reflexivity.
  - rewrite IH. destruct (String.eqb_spec k0 k') as [->|Hne'].
    + destruct (String.eqb_spec k k') as [->|_]; [congruence|reflexivity].
    + reflexivity.
Qed.

(** ** What [__init__] builds *)

Section ConstructionFacts.
Context {F : Type} {SF : Scalar F} {IA : InitArith F}.

(** The place of a kind among the four parameters of a layer. *)
Definition off (k : kind) : nat :=
  match k with W_ih => 0 | W_hh => 1 | B_ih => 2 | B_hh => 3 end.

(** The identity of the parameter of kind [k] of layer [l], when the first
    parameter made is the object [b]. *)
Definition param_id (b : nat) (k : kind) (l : nat) : nat := b + 4 * l + off k.

Definition param_shape (I H : nat) (k : kind) (l : nat) : list nat :=
  match k with
  | W_ih => [H; if l =? 0 then I else H]
  | W_hh => [H; H]
  | B_ih => [H]
  | B_hh => [H]
  end.

Definition ids_of (self : RNN_object) (k : kind) : list nat :=
  match k with
  | W_ih => o_ws_ih self
  | W_hh => o_ws_hh self
  | B_ih => o_bs_ih self
  | B_hh => o_bs_hh self
  end.

(** [2.0 * k_sqrt * u - k_sqrt]. *)
Definition init_value (H : nat) (u : F) : F :=
  fsub (fmul (fmul ftwo (k_sqrt H)) u) (k_sqrt H).

(** The number of elements of the parameters of layer [l], and of the first
    [n] layers. *)
Definition layer_numel (I H l : nat) : nat :=
  H * (if l =? 0 then I else H) + H * H + H + H.

Definition drawn (I H n : nat) : nat := list_sum (map (layer_numel I H) (seq 0 n)).

(** The object and the world after the first [n] rounds of the loop of
    [__init__], started in the world [w0]. *)
Record built (w0 : world) (I H nl n : nat) (self : RNN_object) (w : world) : Prop := {
  b_input : o_input_size self = I;
  b_hidden : o_hidden_size self = H;
  b_layers : o_num_layers self = nl;
  b_ids : forall k, ids_of self k = map (param_id (next w0) k) (seq 0 n);
  b_get : forall k l, l < n ->
      dict_get (_parameters self) (format (template k) l) = Some (param_id (next w0) k l);
  b_keys : forall name id, dict_get (_parameters self) name = Some id ->
      exists k l, l < n /\ name = format (template k) l;
  b_next : next w = next w0 + 4 * n;
  b_frame : forall i, i < next w0 -> heap w i = heap w0 i;
  b_gen : forall i, gen w i = gen w0 (drawn I H n + i);
  b_shape : forall k l, l < n ->
      has_shape (param_shape I H k l) (heap w (param_id (next w0) k l));
  b_values : forall k l, l < n ->
      Forall (fun v => exists j, v = init_value H (gen w0 j))
             (data (heap w (param_id (next w0) k l)))
}.

Lemma drawn_S (I H n : nat) : drawn I H (S n) = drawn I H n + layer_numel I H n.
Proof.
  unfold drawn. rewrite seq_S, map_app, list_sum_app. simpl. lia.
Qed.

Lemma built_start (w0 : world) (I H nl : nat) :
  built w0 I H nl 0
    {| o_input_size := I; o_hidden_size := H; o_num_layers := nl;
       o_ws_ih := []; o_ws_hh := []; o_bs_ih := []; o_bs_hh := [];
       _parameters := [] |} w0.
Proof.
  constructor; cbn; try reflexivity; try (intros; lia); try discriminate.
  now intros [].
Qed.

Ltac name_cases :=
  repeat match goal with
  | |- context [String.eqb (format (template ?a) ?x) (format (template ?b) ?y)] =>
      let E := fresh "E" in
      destruct (String.eqb_spec (format (template a) x) (format (template b) y)) as [E|E];
      [apply format_inj in E; destruct E; try discriminate; try lia
      |try (exfalso; apply E; reflexivity)]
  end.

Ltac heap_cases :=
  repeat match goal with
  | |- context [?a =? ?b] => destruct (Nat.eqb_spec a b); try lia
  end.

Lemma built_step (w0 : world) (I H nl n : nat) (self : RNN_object) (w : world) :
  H <> 0 -> built w0 I H nl n self w ->
  exists self' w',
    init_layer I H self n w = Returns (self', w') /\ built w0 I H nl (S n) self' w'.
Proof.
  intros HH B. destruct B.
  unfold init_layer, _init_weight_, rand, new_parameter.
  rewrite b_hidden0. apply Nat.eqb_neq in HH. rewrite HH.
  cbn [and_then fst snd next heap gen shape data].
  eexists _, _. split; [reflexivity|].
  constructor;
    cbn [setattr o_input_size o_hidden_size o_num_layers o_ws_ih o_ws_hh o_bs_ih o_bs_hh
         _parameters heap next gen].
  - exact b_input0.
  - exact b_hidden0.
  - exact b_layers0.
  - intros k. rewrite seq_S, map_app. cbn [map Nat.add].
    pose proof (b_ids0 k) as E.
    destruct k; cbn [ids_of o_ws_ih o_ws_hh o_bs_ih o_bs_hh] in E |- *; rewrite E;
      f_equal; f_equal; unfold param_id, off; lia.
  - intros k l Hl. rewrite !dict_get_set.
    destruct (Nat.eq_dec l n) as [->|Hne].
    + destruct k; name_cases; f_equal; unfold param_id, off; lia.
    + name_cases. apply b_get0. lia.
  - intros name id. rewrite !dict_get_set.
    repeat match goal with
    | |- context [String.eqb ?a name] =>
        destruct (String.eqb_spec a name) as [<-|]; [intros _; eexists _, n; split; [lia|reflexivity]|]
    end.
    intros Hg. destruct (b_keys0 _ _ Hg) as (k & l & Hl & ->).
    exists k, l. split; [lia|reflexivity].
  - lia.
  - intros i Hi. heap_cases. now apply b_frame0.
  - intros i. rewrite b_gen0. f_equal. rewrite drawn_S. unfold layer_numel. simpl. lia.
  - intros k l Hl. destruct (Nat.eq_dec l n) as [->|Hne].
    + destruct k; unfold param_id, off; heap_cases;
        (split; [unfold wf; cbn [data shape]; now rewrite !length_map, length_seq
                |cbn [shape]; unfold param_shape; heap_cases; reflexivity]).
    + assert (Hlt : param_id (next w0) k l < next w)
        by (unfold param_id; destruct k; cbn [off]; lia).
      heap_cases. apply b_shape0. lia.
  - intros k l Hl. destruct (Nat.eq_dec l n) as [->|Hne].
    + destruct k; unfold param_id, off; heap_cases; cbn [data];
        rewrite map_map; apply Forall_map, Forall_forall; intros j _;
        unfold init_value; rewrite b_gen0; eexists; reflexivity.
    + assert (Hlt : param_id (next w0) k l < next w)
        by (unfold param_id; destruct k; cbn [off]; lia).
      heap_cases. apply b_values0. lia.
Qed.

Lemma built_loop (w0 : world) (I H nl m : nat) :
  H <> 0 ->
  forall n self w, built w0 I H nl n self w ->
    exists self' w',
      init_layers I H self (seq n m) w = Returns (self', w') /\
      built w0 I H nl (n + m) self' w'.
Proof.
  intros HH. induction m as [|m IH]; intros n self w B.
  - exists self, w. split; [reflexivity|]. now rewrite Nat.add_0_r.
  - destruct (built_step HH B) as (self1 & w1 & E1 & B1).
    destruct (IH (S n) self1 w1 B1) as (self' & w' & E & B').
    exists self', w'. split.
    + cbn [seq init_layers]. rewrite E1. cbn [and_then]. exact E.
    + now rewrite Nat.add_succ_r.
Qed.

Lemma init_built (I H nl : nat) (w0 : world) :
  H <> 0 ->
  exists self w, __init__ I H nl w0 = Returns (self, w) /\ built w0 I H nl nl self w.
Proof.
  intros HH. unfold __init__.
  destruct (built_loop nl HH (built_start w0 I H nl)) as (self & w & E & B).
  exists self, w. split; assumption.
Qed.

End ConstructionFacts.

Section InitTheorems.
Context {F : Type} {SF : Scalar F} {IA : InitArith F}.




Lemma params_ok_map (s : nat -> list nat) (g : nat -> tensor F) (m : nat) :
  forall i, (forall l, i <= l < i + m -> has_shape (s l) (g l)) ->
            params_ok s i (map g (seq i m)) = true.
Proof.
  induction m as [|m IH]; intros i Hall; [reflexivity|].
  cbn [seq map params_ok]. apply andb_true_intro. split.
  - destruct (Hall i ltac:(lia)) as [Hwf Hs]. unfold param_ok, wf in *.
    rewrite Hs in *. now rewrite shape_eqb_refl, Hwf, Nat.eqb_refl.
  - apply IH. intros l Hl. apply Hall. lia.
Qed.

Lemma built_init_inv (w0 : world) (I H nl : nat) (self : RNN_object) (w : world) :
  built w0 I H nl nl self w -> init_inv (view w self) = true.
Proof.
  intros B. destruct B. subst I H. unfold init_inv, view.
  cbn [ws_ih ws_hh bs_ih bs_hh num_layers hidden_size input_size].
  pose proof (b_ids0 W_ih) as E1. pose proof (b_ids0 W_hh) as E2.
  pose proof (b_ids0 B_ih) as E3. pose proof (b_ids0 B_hh) as E4.
  cbn [ids_of] in E1, E2, E3, E4. rewrite E1, E2, E3, E4, b_layers0.
  rewrite !length_map, !length_seq, !Nat.eqb_refl. cbn [andb].
  rewrite !map_map.
  rewrite params_ok_map by (intros l Hl; apply (b_shape0 W_ih); lia).
  rewrite params_ok_map by (intros l Hl; apply (b_shape0 W_hh); lia).
  rewrite params_ok_map by (intros l Hl; apply (b_shape0 B_ih); lia).
  rewrite params_ok_map by (intros l Hl; apply (b_shape0 B_hh); lia).
  reflexivity.
Qed.

(** X8: for a [hidden_size] that is not 0, [__init__] returns a model that
    the forward pass can use: one parameter of each kind per layer, of the
    dimensions the layer needs.  The parameter objects that existed before
    keep their data. *)
Theorem init_establishes_invariant (I H nl : nat) (w0 : world) :
  H <> 0 ->
  exists self w,
    __init__ I H nl w0 = Returns (self, w) /\
    init_inv (view w self) = true /\
    input_size (view w self) = I /\ hidden_size (view w self) = H /\
    num_layers (view w self) = nl /\
    forall i, i < next w0 -> heap w i = heap w0 i.
Proof.
  intros HH. destruct (init_built I nl w0 HH) as (self & w & E & B).
  exists self, w. split; [exact E|]. split; [exact (built_init_inv B)|].
  destruct B. now repeat split.
Qed.

(** X9: with [hidden_size = 0] and at least one layer, [__init__] raises a
    [ZeroDivisionError], from [1/self.hidden_size] in [_init_weight_]. *)
Theorem init_zero_hidden_size (I nl : nat) (w0 : world) :
  1 <= nl -> __init__ I 0 nl w0 = Throws ZeroDivisionError.
Proof.
  intros Hnl. destruct nl as [|nl]; [lia|]. reflexivity.
Qed.



End InitTheorems.

(** ** The cell that copies the weights of the reference model *)

Section CopyFacts.
Context {F : Type} {SF : Scalar F} {IA : InitArith F}.

Lemma param_id_inj (b : nat) (k k' : kind) (l l' : nat) :
  param_id b k l = param_id b k' l' -> k = k' /\ l = l'.
Proof.
  unfold param_id. intros H.
  destruct k, k'; cbn [off] in H; (split; [reflexivity || lia|lia]).
Qed.

Lemma item_eq_dec (a b : kind * nat) : {a = b} + {a <> b}.
Proof. decide equality; [apply Nat.eq_dec|decide equality]. Qed.

Lemma list_prod_map (A B C D : Type) (f : A -> C) (g : B -> D) (l : list A) (l' : list B) :
  list_prod (map f l) (map g l') = map (fun p => (f (fst p), g (snd p))) (list_prod l l').
Proof.
  induction l as [|a l IH]; [reflexivity|].
  cbn [map list_prod]. rewrite IH, map_app, !map_map. reflexivity.
Qed.

Section Copy.
Variables (self : RNN_object) (rnn_torch : String.string -> option (tensor F)).
Variables (T : kind -> nat -> tensor F) (b nl : nat).
Hypothesis Hget : forall k l, l < nl ->
  dict_get (_parameters self) (format (template k) l) = Some (param_id b k l).
Hypothesis Htorch : forall k l, l < nl -> rnn_torch (format (template k) l) = Some (T k l).

Lemma copy_loop_kinds (its : list (kind * nat)) :
  Forall (fun it => snd it < nl) its ->
  forall w, exists w',
    copy_loop (map (fun it => (template (fst it), str (snd it))) its) self rnn_torch w
      = Returns w' /\
    (forall it, In it its -> heap w' (param_id b (fst it) (snd it)) = T (fst it) (snd it)) /\
    (forall i, (forall it, In it its -> param_id b (fst it) (snd it) <> i) ->
               heap w' i = heap w i).
Proof.
  induction 1 as [|[k l] its Hl _ IH]; intros w.
  - exists w. split; [reflexivity|]. split; [intros it []|reflexivity].
  - cbn [snd] in Hl. cbn [map copy_loop fst snd]. unfold getattr.
    change (String.append (template k) (str l)) with (format (template k) l).
    rewrite (Hget k Hl), (Htorch k Hl). cbn [and_then].
    destruct (IH (set_data w (param_id b k l) (T k l))) as (w' & E & Hin & Hout).
    exists w'. split; [exact E|]. split.
    + intros it [<-|Hit]; [|now apply Hin]. cbn [fst snd].
      destruct (in_dec item_eq_dec (k, l) its) as [Hi|Hni]; [exact (Hin _ Hi)|].
      rewrite Hout.
      * cbn [set_data heap]. now rewrite Nat.eqb_refl.
      * intros [k' l'] Hit E'. cbn [fst snd] in E'.
        apply param_id_inj in E' as [-> ->]. contradiction.
    + intros i Hi. rewrite Hout by (intros it Hit; apply Hi; now right).
      cbn [set_data heap]. specialize (Hi (k, l) (or_introl eq_refl)). cbn [fst snd] in Hi.
      destruct (Nat.eqb_spec i (param_id b k l)); [congruence|reflexivity].
Qed.

End Copy.

Lemma copy_loop_throws (self : RNN_object) (rnn_torch : String.string -> option (tensor F))
    (items : list (String.string * String.string)) :
  (exists it, In it items /\
     (dict_get (_parameters self) (String.append (fst it) (snd it)) = None \/
      rnn_torch (String.append (fst it) (snd it)) = None)) ->
  forall w, copy_loop items self rnn_torch w = Throws AttributeError.
Proof.
  induction items as [|[p l] items IH]; intros (it & Hin & Hit) w; [destruct Hin|].
  cbn [copy_loop]. unfold getattr.
  destruct (dict_get (_parameters self) (String.append p l)) as [id|] eqn:Eg;
    cbn [and_then]; [|reflexivity].
  destruct (rnn_torch (String.append p l)) as [t|] eqn:Et; [|reflexivity].
  apply IH. exists it. split; [|exact Hit].
  destruct Hin as [<-|Hin]; [|exact Hin].
  cbn [fst snd] in Hit. destruct Hit; congruence.
Qed.

(** X11: after the cell that copies the weights, the model that the forward
    pass reads holds the data of the reference model: the parameter of
    layer [l] in each of the four lists is the data registered in the
    reference model under the name of that kind and layer.  The attributes
    that the cell writes through are the very objects that the lists hold. *)
Theorem copy_parameters_injects_weights (I H nl : nat) (w0 : world)
    (rnn_torch : String.string -> option (tensor F)) (T : kind -> nat -> tensor F) :
  H <> 0 ->
  (forall k l, l < nl -> rnn_torch (format (template k) l) = Some (T k l)) ->
  exists self w w',
    __init__ I H nl w0 = Returns (self, w) /\
    copy_parameters nl self rnn_torch w = Returns w' /\
    view w' self
    = {| input_size := I; hidden_size := H; num_layers := nl;
         ws_ih := map (T W_ih) (seq 0 nl);
         ws_hh := map (T W_hh) (seq 0 nl);
         bs_ih := map (T B_ih) (seq 0 nl);
         bs_hh := map (T B_hh) (seq 0 nl) |}.
Proof.
  intros HH Htorch. destruct (init_built I nl w0 HH) as (self & w & E & B).
  destruct B.
  set (its := list_prod [B_ih; B_hh; W_ih; W_hh] (seq 0 nl)).
  assert (Hits : Forall (fun it => snd it < nl) its).
  { apply Forall_forall. intros [k l] Hin. apply in_prod_iff in Hin as [_ Hl].
    apply in_seq in Hl. cbn [snd]. lia. }
  destruct (@copy_loop_kinds self rnn_torch T (next w0) nl b_get0 Htorch its Hits w)
    as (w' & Ec & Hin & _).
  exists self, w, w'. split; [exact E|]. split.
  - unfold copy_parameters.
    change params with (map template [B_ih; B_hh; W_ih; W_hh]).
    rewrite list_prod_map. exact Ec.
  - assert (Hk : forall k, map (heap w') (ids_of self k) = map (T k) (seq 0 nl)).
    { intros k. rewrite b_ids0, map_map. apply map_ext_in. intros l Hl.
      apply (Hin (k, l)). apply in_prod_iff. split; [|exact Hl].
      destruct k; cbn; tauto. }
    unfold view. rewrite b_input0, b_hidden0, b_layers0.
    pose proof (Hk W_ih) as E1. pose proof (Hk W_hh) as E2.
    pose proof (Hk B_ih) as E3. pose proof (Hk B_hh) as E4.
    cbn [ids_of] in E1, E2, E3, E4. now rewrite E1, E2, E3, E4.
Qed.

(** X12: the cell raises an [AttributeError] when it is run for more
    layers than the model has, or when the reference model lacks one of the
    names. *)
Theorem copy_parameters_attribute_error (I H nl n : nat) (w0 : world)
    (rnn_torch : String.string -> option (tensor F)) :
  H <> 0 ->
  nl < n \/ (exists k l, l < n /\ rnn_torch (format (template k) l) = None) ->
  exists self w,
    __init__ I H nl w0 = Returns (self, w) /\
    copy_parameters n self rnn_torch w = Throws AttributeError.
Proof.
  intros HH Hbad. destruct (init_built I nl w0 HH) as (self & w & E & B).
  exists self, w. split; [exact E|]. unfold copy_parameters.
  apply copy_loop_throws.
  change params with (map template [B_ih; B_hh; W_ih; W_hh]).
  destruct Hbad as [Hn|(k & l & Hl & Hk)].
  - exists (template W_ih, str nl). split.
    + apply in_prod; [cbn; tauto|]. apply in_map, in_seq. lia.
    + left. cbn [fst snd].
      change (String.append (template W_ih) (str nl)) with (format (template W_ih) nl).
      destruct (dict_get (_parameters self) (format (template W_ih) nl)) as [id|] eqn:Eg;
        [|reflexivity].
      destruct (b_keys B _ Eg) as (k' & l' & Hl' & Hf).
      apply format_inj in Hf as [_ ->]. lia.
  - exists (template k, str l). split.
    + apply in_prod; [destruct k; cbn; tauto|]. apply in_map, in_seq. lia.
    + right. exact Hk.
Qed.

End CopyFacts.

(** * The values that the forward pass returns *)

(** ** Every entry is a value of tanh *)

Section ImageFacts.
Context {F : Type} {SF : Scalar F}.

(** Every element of [t] satisfies [P]. *)
Definition entries (P : F -> Prop) (t : tensor F) : Prop := Forall P (data t).

(** [v] is the tanh of some value. *)
Definition tanh_value (v : F) : Prop := exists z, v = ftanh z.

Lemma Forall_firstn (A : Type) (P : A -> Prop) (n : nat) (l : list A) :
  Forall P l -> Forall P (firstn n l).
Proof.
  intros Hl; revert n; induction Hl as [|a l Ha _ IH]; intros [|n]; cbn [firstn];
    constructor; auto.
Qed.

Lemma Forall_skipn (A : Type) (P : A -> Prop) (m : nat) (l : list A) :
  Forall P l -> Forall P (skipn m l).
Proof.
  intros Hl; revert m; induction Hl as [|a l Ha Hl IH]; intros [|m]; cbn [skipn];
    try constructor; auto.
Qed.

Lemma Forall_chunks (A : Type) (P : A -> Prop) (n k : nat) (l : list A) :
  Forall P l -> Forall (Forall P) (chunks n k l).
Proof.
  revert l; induction n as [|n IH]; intros l Hl; constructor.
  - now apply Forall_firstn.
  - apply IH. now apply Forall_skipn.
Qed.

Lemma Forall_transposed (P : F -> Prop) (a b c k : nat) (d : list F) :
  Forall P d ->
  Forall P (concat (concat (transpose b (map (chunks b c) (chunks a k d))))).
Proof.
  intros Hd. apply Forall_concat, Forall_concat. unfold transpose.
  apply Forall_map, Forall_forall. intros j _.
  apply Forall_map, Forall_map. eapply Forall_impl; [|apply (Forall_chunks a k Hd)].
  intros ch Hch. cbn beta.
  destruct (nth_in_or_default j (chunks b c ch) []) as [Hin | Hd0]; [|rewrite Hd0; constructor].
  pose proof (Forall_chunks b c Hch) as Hall. rewrite Forall_forall in Hall.
  now apply Hall.
Qed.

Lemma stack_inv (ts : list (tensor F)) (t : tensor F) :
  stack ts = Ok t -> ts <> [] /\ data t = concat (map data ts).
Proof.
  unfold stack. destruct ts as [|u ts]; [discriminate|].
  destruct (forallb _ ts); [|discriminate]. intros E; injection E as <-.
  split; [discriminate|reflexivity].
Qed.

Lemma stack_entries (P : F -> Prop) (ts : list (tensor F)) (t : tensor F) :
  stack ts = Ok t -> Forall (entries P) ts -> entries P t.
Proof.
  intros E Hall. apply stack_inv in E as [_ Hd]. unfold entries. rewrite Hd.
  apply Forall_concat, Forall_map. exact Hall.
Qed.

Section Cells.
Variables (P : F -> Prop) (f : @cell F).
Hypothesis Hf : forall x h r, f x h = Ok r -> entries P r.

Lemma cum_map_loop_entries (xs : list (tensor F)) :
  forall h acc r h',
    cum_map_loop f xs h acc = Ok (r, h') -> Forall (entries P) acc ->
    Forall (entries P) r /\ (xs <> [] -> entries P h') /\ (xs = [] -> r = acc).
Proof.
  induction xs as [|x xs IH]; intros h acc r h' E Hacc.
  - cbn in E. injection E as <- <-. repeat split; [assumption|congruence].
  - cbn [cum_map_loop] in E. destruct (f x h) as [h1|e] eqn:E1; [|discriminate].
    cbn [bind] in E. pose proof (Hf E1) as H1.
    edestruct IH as (Hr & Hh & Hnil); [exact E| |].
    { apply Forall_app. split; [assumption|now constructor]. }
    split; [exact Hr|]. split; [|discriminate].
    intros _. destruct xs as [|y xs]; [|apply Hh; discriminate].
    cbn in E. now injection E as _ <-.
Qed.

Lemma cum_map_entries (xs h out hL : tensor F) :
  cum_map f xs h = Ok (out, hL) -> entries P out /\ entries P hL.
Proof.
  unfold cum_map. destruct (iter xs) as [rows|e]; [|discriminate]. cbn [bind].
  destruct (cum_map_loop f rows h []) as [[r h']|e] eqn:El; [|discriminate]. cbn [bind].
  destruct (stack r) as [s|e] eqn:Es; [|discriminate]. cbn [bind].
  intros E; injection E as <- <-.
  edestruct cum_map_loop_entries as (Hr & Hh & Hnil); [exact El|constructor|].
  split; [eapply stack_entries; eassumption|]. apply Hh. intros ->.
  rewrite (Hnil eq_refl) in Es. discriminate.
Qed.

End Cells.

Lemma tanh_cell_entries (x h w_ih w_hh b_ih b_hh r : tensor F) :
  tanh_cell x h w_ih w_hh b_ih b_hh = Ok r -> entries tanh_value r.
Proof.
  unfold tanh_cell.
  destruct (einsum_ij_j w_ih x) as [a|e]; [|discriminate]. cbn [bind].
  destruct (einsum_ij_j w_hh h) as [b|e]; [|discriminate]. cbn [bind].
  destruct (add a b) as [s1|e]; [|discriminate]. cbn [bind].
  destruct (add s1 b_ih) as [s2|e]; [|discriminate]. cbn [bind].
  destruct (add s2 b_hh) as [s3|e]; [|discriminate]. cbn [bind].
  intros E; injection E as <-. unfold entries, tanh. cbn [data].
  apply Forall_map, Forall_forall. intros z _. now exists z.
Qed.

Lemma layers_loop_entries (self : RNN) (items : list (nat * tensor F)) :
  forall x acc x' hs,
    layers_loop self tanh_cell items x acc = Ok (x', hs) ->
    Forall (entries tanh_value) acc ->
    Forall (entries tanh_value) hs /\ (items <> [] -> entries tanh_value x') /\
    (items = [] -> hs = acc).
Proof.
  induction items as [|[i h0] items IH]; intros x acc x' hs E Hacc.
  - cbn in E. injection E as <- <-. repeat split; [assumption|congruence].
  - cbn [layers_loop] in E.
    destruct (f_partial self tanh_cell i) as [g|e] eqn:Eg; [|discriminate]. cbn [bind] in E.
    destruct (cum_map g x h0) as [[x1 h1]|e] eqn:Ec; [|discriminate]. cbn [bind] in E.
    assert (Hg : forall u v r, g u v = Ok r -> entries tanh_value r).
    { unfold f_partial in Eg.
      destruct (index (ws_ih self) i); [|discriminate].
      destruct (index (ws_hh self) i); [|discriminate].
      destruct (index (bs_ih self) i); [|discriminate].
      destruct (index (bs_hh self) i); [|discriminate].
      cbn [bind] in Eg. injection Eg as <-. intros u v r. apply tanh_cell_entries. }
    edestruct cum_map_entries as [Hx1 Hh1]; [exact Hg|exact Ec|].
    edestruct IH as (Hhs & Hx' & Hnil); [exact E| |].
    { apply Forall_app. split; [assumption|now constructor]. }
    split; [exact Hhs|]. split; [|discriminate]. intros _.
    destruct items as [|it items]; [|apply Hx'; discriminate].
    cbn in E. now injection E as <- _.
Qed.

Lemma batch_forward_entries (self : RNN) (x h_0 hs hn : tensor F) :
  batch_forward self x h_0 = Ok (hs, hn) ->
  entries tanh_value hs /\ entries tanh_value hn.
Proof.
  unfold batch_forward, layers_forward.
  destruct (iter h_0) as [rows|e]; [|discriminate]. cbn [bind].
  destruct (layers_loop self tanh_cell (enumerate rows) x []) as [[x' hs_L]|e] eqn:El;
    [|discriminate]. cbn [bind].
  destruct (stack hs_L) as [s|e] eqn:Es; [|discriminate]. cbn [bind].
  intros E; injection E as <- <-.
  edestruct layers_loop_entries as (Hhs & Hx' & Hnil); [exact El|constructor|].
  split; [|eapply stack_entries; eassumption].
  apply Hx'. intros Hitems. rewrite (Hnil Hitems) in Es. discriminate.
Qed.

Lemma batch_loop_entries (self : RNN) (pairs : list (tensor F * tensor F)) :
  forall a b a' b',
    batch_loop self pairs a b = Ok (a', b') ->
    Forall (entries tanh_value) a -> Forall (entries tanh_value) b ->
    Forall (entries tanh_value) a' /\ Forall (entries tanh_value) b'.
Proof.
  induction pairs as [|[xb hb] pairs IH]; intros a b a' b' E Ha Hb.
  - cbn in E. injection E as <- <-. now split.
  - cbn [batch_loop] in E.
    destruct (batch_forward self xb hb) as [[hs hn]|e] eqn:Eb; [|discriminate].
    cbn [bind] in E. apply batch_forward_entries in Eb as [Hhs Hhn].
    eapply IH; [exact E| |]; apply Forall_app; split; try assumption; now constructor.
Qed.

(** X13: whenever the forward pass returns, every entry of the hidden
    sequence and of the final hidden stack is the tanh of some value,
    whatever the input, the parameters and [h_0] are. *)
Theorem call_entries_are_tanh_values (self : RNN) (g : globals) (x : tensor F)
    (h_0 : option (tensor F)) (out h_L : tensor F) :
  __call__ self g x h_0 = Ok (out, h_L) ->
  entries tanh_value out /\ entries tanh_value h_L.
Proof.
  unfold __call__.
  destruct (match h_0 with
            | Some h => Ok h
            | None => n <- global_N g ;; Ok (zeros [num_layers self; n; hidden_size self])
            end) as [t|e]; [|discriminate]. cbn [bind].
  destruct (global_N g) as [n|e]; [|discriminate]. cbn [bind].
  destruct (reshape t _) as [h'|e]; [|discriminate]. cbn [bind].
  destruct (iter x) as [xs|e]; [|discriminate]. cbn [bind].
  destruct (iter h') as [hs|e]; [|discriminate]. cbn [bind].
  destruct (batch_loop self (combine xs hs) [] []) as [[bhs bhn]|e] eqn:El;
    [|discriminate]. cbn [bind].
  destruct (stack bhs) as [o|e] eqn:Eo; [|discriminate]. cbn [bind].
  destruct (stack bhn) as [sn|e] eqn:En; [|discriminate]. cbn [bind].
  destruct (einsum_ijk_jik sn) as [hl|e] eqn:Ee; [|discriminate]. cbn [bind].
  intros E; injection E as <- <-.
  edestruct batch_loop_entries as [Ha Hb]; [exact El|constructor|constructor|].
  split; [eapply stack_entries; eassumption|].
  assert (Hsn : entries tanh_value sn) by (eapply stack_entries; eassumption).
  unfold einsum_ijk_jik in Ee.
  destruct (shape sn) as [|a [|b [|c [|]]]]; try discriminate.
  injection Ee as <-. unfold entries. cbn [data]. now apply Forall_transposed.
Qed.

End ImageFacts.

(** ** The final states are the last outputs *)

Section LastStepFacts.
Context {F : Type} {SF : Scalar F}.

Lemma firstn_skipn_concat (A : Type) (k i : nat) (cs : list (list A)) :
  Forall (fun c => length c = k) cs -> i < length cs ->
  firstn k (skipn (i * k) (concat cs)) = nth i cs [].
Proof.
  intros Hall Hi. rewrite <- (nth_chunks k (concat cs) Hi).
  now rewrite chunks_concat.
Qed.

Lemma nth_last (A : Type) (l : list A) (d : A) : nth (length l - 1) l d = last l d.
Proof.
  induction l as [|a l IH]; [reflexivity|].
  destruct l as [|b l]; [reflexivity|].
  cbn [length Nat.sub] in *. rewrite Nat.sub_0_r in *.
  change (nth (S (length l)) (a :: b :: l) d) with (nth (length l) (b :: l) d).
  rewrite IH. reflexivity.
Qed.

Lemma data_lengths (s : list nat) (ts : list (tensor F)) :
  Forall (has_shape s) ts -> Forall (fun c => length c = numel s) (map data ts).
Proof.
  intros Hall. apply Forall_map. eapply Forall_impl; [|exact Hall].
  intros t [Hwf Hs]. unfold wf in Hwf. now rewrite Hs in Hwf.
Qed.

Lemma sub_stacked (s : list nat) (ts : list (tensor F)) (n i : nat) (d : tensor F) :
  Forall (has_shape s) ts -> i < length ts ->
  sub (mkT (n :: s) (concat (map data ts))) i = nth i ts d.
Proof.
  intros Hall Hi. unfold sub. cbn [shape data tl].
  rewrite (firstn_skipn_concat (data_lengths Hall)) by (now rewrite length_map).
  rewrite (nth_map_in_range data ts d []) by exact Hi.
  rewrite Forall_forall in Hall. apply has_shape_eta, Hall, nth_In, Hi.
Qed.

Lemma cum_map_last_row (f : cell) (xs h0 : tensor F) (L : nat) (sx sh : list nat) :
  1 <= L -> has_shape (L :: sx) xs -> has_shape sh h0 -> cell_typed f sx sh ->
  exists out hL, cum_map f xs h0 = Ok (out, hL) /\
                 has_shape (L :: sh) out /\ has_shape sh hL /\ sub out (L - 1) = hL.
Proof.
  intros HL Hxs Hh Hf.
  pose proof (iter_rows_shape Hxs) as Hrows.
  destruct (cum_map_loop_scan Hf Hrows [] Hh) as (hs & Hlen & Hall & _ & Hloop).
  rewrite length_map, chunks_length in Hlen. cbn [app] in Hloop.
  assert (Hne : hs <> []) by (destruct hs; [simpl in Hlen; lia|discriminate]).
  assert (Hlast : sub (mkT (L :: sh) (concat (map data hs))) (L - 1) = last hs h0).
  { rewrite (sub_stacked L h0 Hall) by lia. rewrite <- Hlen. apply nth_last. }
  exists (mkT (L :: sh) (concat (map data hs))), (last hs h0).
  split; [|split; [|split]].
  - unfold cum_map. rewrite (iter_eq _ (proj2 Hxs)). cbn [bind]. rewrite Hloop.
    cbn [bind]. rewrite (stack_eq Hne (has_shape_shapes Hall)). now rewrite Hlen.
  - now apply stacked_has_shape_n.
  - rewrite <- Hlast. rewrite (sub_stacked L h0 Hall) by lia.
    rewrite Forall_forall in Hall. apply Hall, nth_In. lia.
  - exact Hlast.
Qed.

Lemma layers_loop_last_row (self : RNN) (f : cell_fn) (n L : nat) (sx sh : list nat)
    (rows : list (tensor F)) (d : tensor F) :
  1 <= L -> layers_typed self f n sx sh -> Forall (has_shape sh) rows ->
  forall (i : nat) (x : tensor F) (acc : list (tensor F)),
    i + length rows <= n ->
    has_shape (L :: (if i =? 0 then sx else sh)) x ->
    exists out finals,
      layers_loop self f (combine (seq i (length rows)) rows) x acc
        = Ok (out, acc ++ finals) /\
      length finals = length rows /\ Forall (has_shape sh) finals /\
      (rows = [] -> out = x) /\
      (rows <> [] -> has_shape (L :: sh) out /\ sub out (L - 1) = last finals d).
Proof.
  intros HL Hf Hrows; induction Hrows as [|h0 rows Hh0 _ IH]; intros i x acc Hi Hx.
  - exists x, []. cbn. rewrite app_nil_r. repeat split; try constructor; congruence.
  - simpl in Hi. destruct (Hf i ltac:(lia)) as (g & Hg & Hty).
    destruct (cum_map_last_row HL Hx Hh0 Hty) as (o1 & h1 & Hcm & Ho1 & Hh1 & Hl1).
    destruct (IH (S i) o1 (acc ++ [h1]) ltac:(lia) Ho1)
      as (out & finals & Hloop & Hlen & Hfin & Hnil & Hcons).
    exists out, (h1 :: finals).
    split; [|split; [|split; [|split]]].
    + cbn [length seq combine layers_loop]. rewrite Hg. cbn [bind]. rewrite Hcm.
      cbn [bind]. rewrite Hloop. now rewrite <- app_assoc.
    + simpl. now rewrite Hlen.
    + now constructor.
    + discriminate.
    + intros _. destruct rows as [|r rows].
      * rewrite (Hnil eq_refl). destruct finals; [|discriminate]. now split.
      * destruct (Hcons ltac:(discriminate)) as [Ho Hs]. split; [exact Ho|].
        rewrite Hs. destruct finals; [discriminate|reflexivity].
Qed.

Lemma sub_sub_transposed (hns : list (tensor F)) (a c l n : nat) (d : tensor F) :
  Forall (has_shape [a; c]) hns -> l < a -> n < length hns ->
  sub (sub (mkT [a; length hns; c]
                (concat (concat (transpose a (map (chunks a c) (map data hns)))))) l) n
  = sub (nth n hns d) l.
Proof.
  intros Hall Hl Hn.
  set (M := map (chunks a c) (map data hns)).
  assert (HM : Forall (fun r => length r = a /\ Forall (fun e => length e = c) r) M).
  { unfold M. apply Forall_map, Forall_map. eapply Forall_impl; [|exact Hall].
    intros t [Hwf Hs]. unfold wf in Hwf. rewrite Hs in Hwf. simpl in Hwf.
    split; [apply chunks_length|apply chunks_all_length; lia]. }
  assert (HlenM : length M = length hns) by (unfold M; now rewrite !length_map).
  assert (Hrow : nth l (transpose a M) [] = map (fun r => nth l r []) M)
    by (now apply transpose_row).
  assert (Hrowlen : Forall (fun e => length e = c) (map (fun r => nth l r []) M)).
  { apply Forall_map. eapply Forall_impl; [|exact HM]. intros r [Hr Hall'].
    rewrite Forall_forall in Hall'. apply Hall', nth_In. lia. }
  assert (Hhn : has_shape [a; c] (nth n hns d)).
  { rewrite Forall_forall in Hall. apply Hall, nth_In, Hn. }
  unfold sub at 2. cbn [shape data tl numel fold_right].
  rewrite concat_concat.
  rewrite (@firstn_skipn_concat _ (length hns * (c * 1)) l (map (@concat F) (transpose a M))).
  2: { apply Forall_map. apply Forall_forall. intros r Hr.
       unfold transpose in Hr. apply in_map_iff in Hr as (j & <- & Hj). apply in_seq in Hj.
       rewrite (@length_concat_uniform _ c).
       - rewrite length_map, HlenM. lia.
       - apply Forall_map. eapply Forall_impl; [|exact HM]. intros r [Hr Hall'].
         rewrite Forall_forall in Hall'. apply Hall', nth_In. lia. }
  2: { unfold transpose. now rewrite !length_map, length_seq. }
  rewrite (nth_map_in_range (@concat F) (transpose a M) [] [])
    by (unfold transpose; now rewrite length_map, length_seq).
  rewrite Hrow. unfold sub. cbn [shape data tl numel fold_right].
  rewrite (proj2 Hhn). cbn [tl numel fold_right]. rewrite !Nat.mul_1_r.
  rewrite (firstn_skipn_concat Hrowlen) by (now rewrite length_map, HlenM).
  rewrite (nth_map_in_range (fun r => nth l r []) M [] []) by lia.
  unfold M. rewrite (nth_map_in_range (chunks a c) (map data hns) [] [])
    by (now rewrite length_map).
  rewrite (nth_map_in_range data hns d []) by exact Hn.
  now rewrite nth_chunks.
Qed.

Section Valid.
Variables (self : @RNN F) (L : nat).
Hypothesis Hinv : init_inv self = true.
Hypothesis HL : 1 <= L.
Hypothesis Hlayers : 1 <= num_layers self.

Lemma batch_forward_last_row (x h_0 : tensor F) :
  has_shape [L; input_size self] x ->
  has_shape [num_layers self; hidden_size self] h_0 ->
  exists hs hn, batch_forward self x h_0 = Ok (hs, hn) /\
                sub hn (num_layers self - 1) = sub hs (L - 1).
Proof.
  intros Hx Hh. pose proof (iter_rows_shape Hh) as Hrows.
  set (rows := map (mkT [hidden_size self])
                   (chunks (num_layers self) (numel [hidden_size self]) (data h_0))) in *.
  assert (Hlen : length rows = num_layers self)
    by (unfold rows; now rewrite length_map, chunks_length).
  destruct (@layers_loop_last_row self tanh_cell (num_layers self) L [input_size self]
              [hidden_size self] rows h_0 HL (init_inv_layers_typed self Hinv) Hrows 0 x [])
    as (out & finals & Hloop & Hl & Hfin & _ & Hcons); [lia|exact Hx|].
  assert (Hne : rows <> []) by (destruct rows; [simpl in Hlen; lia|discriminate]).
  destruct (Hcons Hne) as [Hout Hlast].
  assert (Hfne : finals <> []) by (destruct finals; [simpl in Hl; lia|discriminate]).
  exists out, (mkT (length finals :: [hidden_size self]) (concat (map data finals))).
  split.
  - unfold batch_forward, layers_forward. rewrite (iter_eq _ (proj2 Hh)). fold rows.
    cbn [bind]. unfold enumerate. rewrite Hloop. cbn [bind app].
    now rewrite (stack_eq Hfne (has_shape_shapes Hfin)).
  - rewrite (sub_stacked _ h_0 Hfin) by lia. rewrite Hlast.
    rewrite <- Hlen, <- Hl. apply nth_last.
Qed.

End Valid.

(** X14: in what the forward pass returns, the final state of the last
    layer is the last step of the hidden sequence, for every row [n] of the
    batch: [h_L[num_layers - 1][n] = out[n][L - 1]]. *)
Theorem call_final_state_is_last_output (self : RNN) (g : globals) (x h_0 : tensor F)
    (B L : nat) :
  init_inv self = true -> N g = Some B -> 1 <= B -> 1 <= L -> 1 <= num_layers self ->
  has_shape [B; L; input_size self] x ->
  has_shape [B; num_layers self; hidden_size self] h_0 ->
  exists out h_L,
    __call__ self g x (Some h_0) = Ok (out, h_L) /\
    forall n, n < B ->
      sub (sub h_L (num_layers self - 1)) n = sub (sub out n) (L - 1).
Proof.
  intros Hinv HN HB HL Hlayers Hx Hh.
  destruct (call_rows self Hinv HL Hlayers g HN HB Hx (proj1 Hh)) as (rs & Hall & Hres & Hcall).
  { now rewrite (proj2 Hh). }
  rewrite (has_shape_eta Hh) in Hall.
  assert (Hlen : length rs = B).
  { apply Forall2_length in Hall. now rewrite length_seq in Hall. }
  assert (Hfst : Forall (has_shape [L; hidden_size self]) (map fst rs)).
  { apply Forall_map. eapply Forall_impl; [|exact Hres]. now intros r [H1 _]. }
  assert (Hsnd : Forall (has_shape [num_layers self; hidden_size self]) (map snd rs)).
  { apply Forall_map. eapply Forall_impl; [|exact Hres]. now intros r [_ H2]. }
  eexists _, _. split; [exact Hcall|]. intros n Hn.
  destruct (nth_error rs n) as [r|] eqn:En;
    [|apply nth_error_None in En; lia].
  pose proof (@Forall2_seq_nth _ _ rs 0 B n r Hall En) as Hr. cbn [Nat.add] in Hr.
  destruct (batch_forward_last_row self Hinv HL Hlayers
              (sub_has_shape Hx Hn) (sub_has_shape Hh Hn)) as (hs & hn & Hbf & Hlast).
  assert (r = (hs, hn)) by congruence. subst r.
  assert (E1 : nth n (map fst rs) h_0 = hs).
  { rewrite (nth_map_in_range fst rs (hs, hn) h_0) by lia.
    now rewrite (nth_error_nth _ _ _ En). }
  assert (E2 : nth n (map snd rs) h_0 = hn).
  { rewrite (nth_map_in_range snd rs (hs, hn) h_0) by lia.
    now rewrite (nth_error_nth _ _ _ En). }
  rewrite (sub_stacked B h_0 Hfst) by (now rewrite length_map, Hlen).
  rewrite <- Hlen at 1. rewrite <- (length_map snd rs).
  rewrite (sub_sub_transposed h_0 Hsnd) by (rewrite ?length_map; lia).
  now rewrite E1, E2.
Qed.

End LastStepFacts.

(** * The initial weights in real arithmetic *)

From Stdlib Require Import Psatz.

Module RealInit.

#[export] Instance R_init : InitArith R :=
  {| ftwo := 2%R; fsub := Rminus; k_sqrt := fun h => sqrt (1 / INR h) |}.

(** A world with no parameter object yet, whose generator draws zeros. *)
Definition w_start : @world R :=
  {| heap := fun _ => mkT [] []; next := 0; gen := fun _ => 0%R |}.

(** A reference model that holds the same data under every name. *)
Definition torch_ones : String.string -> option (tensor R) :=
  fun _ => Some (mkT [1] [1%R]).

End RealInit.

Section RealRange.
Import Fixtures RealInit.

(** X15: in exact real arithmetic, and for a generator that draws from
    [[0, 1)], every element of every parameter that [__init__] makes lies
    in [[-k, k)] for [k = sqrt (1 / hidden_size)]. *)
Theorem init_weights_in_range (I H nl : nat) (w0 : @world R) :
  H <> 0 -> (forall j, (0 <= gen w0 j < 1)%R) ->
  exists self w,
    __init__ I H nl w0 = Returns (self, w) /\
    forall t, In t (ws_ih (view w self) ++ ws_hh (view w self)
                    ++ bs_ih (view w self) ++ bs_hh (view w self)) ->
      Forall (fun v => (- sqrt (1 / INR H) <= v < sqrt (1 / INR H))%R) (data t).
Proof.
  intros HH Hgen. destruct (init_built I nl w0 HH) as (self & w & E & B).
  exists self, w. split; [exact E|]. intros t Ht.
  assert (Hk : (0 < sqrt (1 / INR H))%R).
  { apply sqrt_lt_R0. apply Rdiv_lt_0_compat; [apply Rlt_0_1|]. apply lt_0_INR. lia. }
  assert (Hid : exists k l, l < nl /\ t = heap w (param_id (next w0) k l)).
  { unfold view in Ht. cbn [ws_ih ws_hh bs_ih bs_hh] in Ht.
    pose proof (b_ids B W_ih) as E1. pose proof (b_ids B W_hh) as E2.
    pose proof (b_ids B B_ih) as E3. pose proof (b_ids B B_hh) as E4.
    cbn [ids_of] in E1, E2, E3, E4. rewrite E1, E2, E3, E4, !map_map in Ht.
    repeat (apply in_app_or in Ht as [Ht|Ht]);
      apply in_map_iff in Ht as (l & <- & Hl); apply in_seq in Hl;
      eexists _, l; (split; [lia|reflexivity]). }
  destruct Hid as (k & l & Hl & ->).
  eapply Forall_impl; [|exact (b_values B k Hl)].
  intros v (j & ->). unfold init_value. cbn [ftwo fsub fmul k_sqrt R_init R_scalar].
  specialize (Hgen j). nra.
Qed.

End RealRange.

(** * The further properties on concrete inputs *)

Section FurtherConcrete.
Import Fixtures RealInit.

Lemma call_default_any_larger_N_witness :
  __call__ rnn1 {| N := Some 3 |} x_two None = __call__ rnn1 {| N := Some 2 |} x_two None.
Proof.
  apply (@call_default_any_larger_N R R_scalar rnn1 {| N := Some 3 |} x_two 3 2 [3; 2]).
  - reflexivity.
  - reflexivity.
  - lia.
Defined.

Lemma call_truncates_batch_witness :
  __call__ rnn1 {| N := Some 2 |} x_three None
  = __call__ rnn1 {| N := Some 2 |}
      (mkT (2 :: [3; 2]) (firstn (2 * numel [3; 2]) (data x_three))) None.
Proof.
  apply (@call_truncates_batch R R_scalar rnn1 {| N := Some 2 |} x_three None 2 3 [3; 2]).
  - reflexivity.
  - reflexivity.
  - lia.
Defined.

Lemma call_ignores_extra_h_0_rows_witness :
  __call__ rnn1 {| N := Some 2 |} (slice x_two 0) (Some h_two)
  = __call__ rnn1 {| N := Some 1 |} (slice x_two 0)
      (Some (mkT [1; num_layers rnn1; hidden_size rnn1]
                 (firstn (1 * (num_layers rnn1 * hidden_size rnn1)) (data h_two)))).
Proof.
  apply (@call_ignores_extra_h_0_rows R R_scalar rnn1 {| N := Some 2 |} (slice x_two 0)
           h_two 2 1 [3; 2]).
  - reflexivity.
  - reflexivity.
  - lia.
  - reflexivity.
  - reflexivity.
Defined.

Lemma cum_map_continuation_witness :
  exists o1 h1 o2 h2 xs out,
    cum_map cell1 x_seq h_vec = Ok (o1, h1) /\ cum_map cell1 x_seq h1 = Ok (o2, h2) /\
    cat0 [x_seq; x_seq] = Ok xs /\ cat0 [o1; o2] = Ok out /\
    cum_map cell1 xs h_vec = Ok (out, h2).
Proof.
  apply (@cum_map_continuation R cell1 x_seq x_seq h_vec 3 3 [2] [2]).
  - exact cell1_typed.
  - lia.
  - lia.
  - split; reflexivity.
  - split; reflexivity.
  - split; reflexivity.
Defined.

Lemma batch_forward_continuation_witness :
  exists o1 hn1 o2 hn2 x out,
    batch_forward rnn2 x_seq h_layers2 = Ok (o1, hn1) /\
    batch_forward rnn2 x_seq hn1 = Ok (o2, hn2) /\
    cat0 [x_seq; x_seq] = Ok x /\ cat0 [o1; o2] = Ok out /\
    batch_forward rnn2 x h_layers2 = Ok (out, hn2).
Proof.
  apply (@batch_forward_continuation R R_scalar rnn2 x_seq x_seq h_layers2 3 3).
  - reflexivity.
  - lia.
  - lia.
  - simpl; lia.
  - split; reflexivity.
  - split; reflexivity.
  - split; reflexivity.
Defined.

Lemma layers_forward_first_layers_witness :
  layers_forward rnn2 tanh_cell x_seq h_layers1
  = layers_forward (first_layers rnn2 1) tanh_cell x_seq h_layers1.
Proof.
  apply (@layers_forward_first_layers R rnn2 tanh_cell x_seq h_layers1 1 [1]).
  reflexivity.
Defined.

Lemma call_feature_mismatch_witness :
  __call__ rnn1 {| N := Some 1 |} (mkT [1; 1; 3] [1; 1; 1]%R) None = Raise RuntimeError.
Proof.
  apply (@call_feature_mismatch R R_scalar rnn1 {| N := Some 1 |}
           (mkT [1; 1; 3] [1; 1; 1]%R) None 1 1 1 3).
  - reflexivity.
  - reflexivity.
  - lia.
  - lia.
  - lia.
  - simpl; lia.
  - reflexivity.
  - simpl; lia.
  - lia.
  - simpl; lia.
Defined.

Lemma init_establishes_invariant_witness :
  exists self w,
    __init__ 2 2 1 w_start = Returns (self, w) /\
    init_inv (view w self) = true /\
    input_size (view w self) = 2 /\ hidden_size (view w self) = 2 /\
    num_layers (view w self) = 1 /\
    forall i, i < next w_start -> heap w i = heap w_start i.
Proof.
  apply (@init_establishes_invariant R R_scalar R_init 2 2 1 w_start). lia.
Defined.

Lemma init_zero_hidden_size_witness :
  __init__ 2 0 1 w_start = Throws ZeroDivisionError.
Proof.
  apply (@init_zero_hidden_size R R_scalar R_init 2 1 w_start). lia.
Defined.


Lemma copy_parameters_injects_weights_witness :
  exists self w w',
    __init__ 2 2 1 w_start = Returns (self, w) /\
    copy_parameters 1 self torch_ones w = Returns w' /\
    view w' self
    = {| input_size := 2; hidden_size := 2; num_layers := 1;
         ws_ih := map (fun _ => mkT [1] [1%R]) (seq 0 1);
         ws_hh := map (fun _ => mkT [1] [1%R]) (seq 0 1);
         bs_ih := map (fun _ => mkT [1] [1%R]) (seq 0 1);
         bs_hh := map (fun _ => mkT [1] [1%R]) (seq 0 1) |}.
Proof.
  apply (@copy_parameters_injects_weights R R_scalar R_init 2 2 1 w_start torch_ones
           (fun _ _ => mkT [1] [1%R])).
  - lia.
  - reflexivity.
Defined.

Lemma copy_parameters_attribute_error_witness :
  exists self w,
    __init__ 2 2 1 w_start = Returns (self, w) /\
    copy_parameters 2 self torch_ones w = Throws AttributeError.
Proof.
  apply (@copy_parameters_attribute_error R R_scalar R_init 2 2 1 2 w_start torch_ones).
  - lia.
  - left. lia.
Defined.

Lemma call_entries_are_tanh_values_witness :
  entries tanh_value
    (mkT [1; 3; 2]
         [Rtrigo_def.tanh 1; Rtrigo_def.tanh 0; Rtrigo_def.tanh 0;
          Rtrigo_def.tanh 1; Rtrigo_def.tanh 1; Rtrigo_def.tanh 1]) /\
  entries tanh_value (mkT [1; 1; 2] [Rtrigo_def.tanh 1; Rtrigo_def.tanh 1]).
Proof.
  apply (@call_entries_are_tanh_values R R_scalar rnn1 {| N := Some 1 |}
           (mkT [1; 3; 2] [1; 0; 0; 1; 1; 1]%R) (Some (mkT [1; 1; 2] [0; 0]%R))).
  exact identity_layer_scenario.
Defined.

Lemma call_final_state_is_last_output_witness :
  exists out h_L,
    __call__ rnn1 {| N := Some 2 |} x_two (Some h_two) = Ok (out, h_L) /\
    forall n, n < 2 ->
      sub (sub h_L (num_layers rnn1 - 1)) n = sub (sub out n) (3 - 1).
Proof.
  apply (@call_final_state_is_last_output R R_scalar rnn1 {| N := Some 2 |} x_two h_two 2 3).
  - reflexivity.
  - reflexivity.
  - lia.
  - lia.
  - simpl; lia.
  - split; reflexivity.
  - split; reflexivity.
Defined.

Lemma init_weights_in_range_witness :
  exists self w,
    __init__ 2 2 1 w_start = Returns (self, w) /\
    forall t, In t (ws_ih (view w self) ++ ws_hh (view w self)
                    ++ bs_ih (view w self) ++ bs_hh (view w self)) ->
      Forall (fun v => (- sqrt (1 / INR 2) <= v < sqrt (1 / INR 2))%R) (data t).
Proof.
  apply (init_weights_in_range 2 1 w_start).
  - lia.
  - intros j. cbn [gen w_start]. lra.
Defined.

End FurtherConcrete.
